(** * The Git reference-advertisement rewriter of gvisor-website

    A shallow embedding of [infoRefs] (cmd/gvisor-website/main.go) and of the
    closures it defines ([emitPkt], [readPkt], [readRef]), with the Go
    library functions the handler calls modelled next to it.

    Go strings are byte sequences: they are [string]s here (one [ascii] per
    byte).  Go [int]s are [Z].  The [http.ResponseWriter], the captured
    [data] buffer and the record of upstream fetches are threaded through a
    small state monad whose results also record a Go panic. *)

From Stdlib Require Import ZArith Ascii String List Lia.
From stdpp Require Import base tactics option list gmap strings sorting.

Local Open Scope Z_scope.

(** ** Bytes and strings as Go sees them *)

Module GoString.

(** The two control bytes the protocol uses: ["\n"] and ["\x00"]. *)
Definition LF : ascii := "010"%char.
Definition NUL : ascii := "000"%char.
Definition SP : ascii := " "%char.

(** [len(s)] *)
Definition len (s : string) : Z := Z.of_nat (String.length s).

(** [s[:n]] and [s[n:]] on an index already known to be in range; the
    callers below write out the range checks of the Go runtime. *)
Fixpoint bytes_to (n : nat) (s : string) : string :=
  match n, s with
  | S n', String c s' => String c (bytes_to n' s')
  | _, _ => ""
  end.

Fixpoint bytes_from (n : nat) (s : string) : string :=
  match n, s with
  | S n', String _ s' => bytes_from n' s'
  | _, _ => s
  end.

Global Arguments bytes_to !_ !_ / : assert.
Global Arguments bytes_from !_ !_ / : assert.

(** [s[lo:hi]] for [0 <= lo <= hi <= len(s)]. *)
Definition slice (s : string) (lo hi : Z) : string :=
  bytes_to (Z.to_nat (hi - lo)) (bytes_from (Z.to_nat lo) s).

(** [strings.HasPrefix(s, prefix)] *)
Definition HasPrefix (s prefix : string) : bool := String.prefix prefix s.

(** [strings.HasSuffix(s, suffix)]:
    [len(s) >= len(suffix) && s[len(s)-len(suffix):] == suffix] *)
Definition HasSuffix (s suffix : string) : bool :=
  bool_decide (len s >= len suffix) &&
  bool_decide (bytes_from (Z.to_nat (len s - len suffix)) s = suffix).

(** [strings.TrimSuffix(s, suffix)] *)
Definition TrimSuffix (s suffix : string) : string :=
  if HasSuffix s suffix then bytes_to (Z.to_nat (len s - len suffix)) s
  else s.

(** [strings.Split(s, sep)] for a separator of one byte, the only kind the
    handler uses (a NUL and a space).  The result is never empty:
    a string without the separator gives the one-element list [[s]]. *)
Fixpoint Split (s : string) (sep : ascii) : list string :=
  match s with
  | "" => [""]
  | String c s' =>
      if decide (c = sep) then "" :: Split s' sep
      else match Split s' sep with
           | x :: xs => String c x :: xs
           | [] => [String c ""]
           end
  end.

(** [strings.Join(elems, sep)] *)
Definition Join (elems : list string) (sep : string) : string :=
  String.concat sep elems.

(** [sort.Strings]: increasing byte-wise lexicographic order.  The order is
    total and equal strings are indistinguishable, so the sorted slice does
    not depend on the algorithm; a merge sort stands for Go's. *)
Definition sort_Strings (l : list string) : list string :=
  merge_sort String.le l.

End GoString.

(** ** strconv and fmt *)

Module Strconv.
Import GoString.

(** The value of one digit byte in [strconv.ParseUint]:
    ['0'..'9'] are 0..9 and a letter, in either case, is 10 + its rank. *)
Definition digitval (c : ascii) : option Z :=
  let b := Z.of_N (N_of_ascii c) in
  if bool_decide (48 <= b <= 57) then Some (b - 48)
  else
    let l := Z.lor b 32 in
    if bool_decide (97 <= l <= 122) then Some (l - 97 + 10) else None.

(** The digit loop of [ParseUint] for an explicit base between 2 and 36
    (no prefix, no underscore): [None] is a syntax error. *)
Fixpoint parse_digits (base : Z) (acc : Z) (s : string) : option Z :=
  match s with
  | "" => Some acc
  | String c s' =>
      match digitval c with
      | Some d => if bool_decide (d >= base) then None
                  else parse_digits base (acc * base + d) s'
      | None => None
      end
  end.

(** [strconv.ParseUint(s, base, bitSize)]: syntax error on the empty string,
    range error above [2^bitSize - 1]. *)
Definition ParseUint (s : string) (base bitSize : Z) : option Z :=
  if bool_decide (s = "") then None
  else match parse_digits base 0 s with
       | Some n => if bool_decide (n > 2 ^ bitSize - 1) then None else Some n
       | None => None
       end.

(** [strconv.ParseInt(s, base, bitSize)]: an optional sign, then
    [ParseUint]; [None] stands for a non-nil [err]. *)
Definition ParseInt (s : string) (base bitSize : Z) : option Z :=
  match s with
  | "" => None
  | String c s' =>
      let neg := bool_decide (c = "-"%char) in
      let digits := if bool_decide (c = "+"%char) || neg then s' else s in
      match ParseUint digits base bitSize with
      | Some un =>
          let cutoff := 2 ^ (bitSize - 1) in
          if negb neg && bool_decide (un >= cutoff) then None
          else if neg && bool_decide (un > cutoff) then None
          else Some (if neg then - un else un)
      | None => None
      end
  end.

(** The lower-case digit of [0 <= d < 16]. *)
Definition hexchar (d : Z) : ascii :=
  match String.get (Z.to_nat d) "0123456789abcdef" with
  | Some c => c
  | None => "?"%char
  end.

(** The hexadecimal digits of a non-negative [int], most significant first.
    A Go [int] has 64 bits, hence at most 16 such digits. *)
Fixpoint hex_digits (fuel : nat) (n : Z) : string :=
  match fuel with
  | O => ""
  | S fuel' =>
      if bool_decide (n < 16) then String (hexchar n) ""
      else hex_digits fuel' (n / 16) +:+ String (hexchar (n mod 16)) ""
  end.

Fixpoint zeros (n : nat) : string :=
  match n with
  | O => ""
  | S n' => String "0"%char (zeros n')
  end.

(** [fmt.Sprintf("%04x", n)] for [n >= 0]: padded with zeros to a width of
    four, longer when the number needs more digits. *)
Definition fmt_04x (n : Z) : string :=
  let ds := hex_digits 16 n in
  zeros (4 - String.length ds) +:+ ds.

(** Four hexadecimal digits, for [0 <= n < 65536]. *)
Definition hex4 (n : Z) : string :=
  String (hexchar (n / 4096)) (String (hexchar (n / 256 mod 16))
    (String (hexchar (n / 16 mod 16)) (String (hexchar (n mod 16)) ""))).

End Strconv.

(** ** net/http and net/url, as far as the handler uses them *)

Module Http.
Import GoString.

Definition StatusOK : Z := 200.
Definition StatusForbidden : Z := 403.
Definition StatusInternalServerError : Z := 500.

(** [http.ResponseWriter]: the status line once it is written, the header
    map and the bytes of the body written so far. *)
Record ResponseWriter := mkResponseWriter {
  status : option Z;
  header : gmap string (list string);
  body : string
}.

Definition newResponseWriter : ResponseWriter :=
  mkResponseWriter None ∅ "".

(** [w.WriteHeader(code)]: only the first call counts.  (What net/http
    does with a code outside 100..999 or with an informational code is
    left out: the handler's own codes are 403 and 500, and the other one
    is the status of an upstream response, passed on as it came.) *)
Definition rw_WriteHeader (code : Z) (w : ResponseWriter) : ResponseWriter :=
  match status w with
  | Some _ => w
  | None => mkResponseWriter (Some code) (header w) (body w)
  end.

(** [w.Write(b)]: an implicit [WriteHeader(200)] first, when no status was
    written yet. *)
Definition rw_Write (b : string) (w : ResponseWriter) : ResponseWriter :=
  let w' := rw_WriteHeader StatusOK w in
  mkResponseWriter (status w') (header w') (body w' +:+ b).

(** [w.Header().Set(key, value)] *)
Definition rw_Header_Set (key value : string) (w : ResponseWriter)
  : ResponseWriter :=
  mkResponseWriter (status w) (<[key := [value]]> (header w)) (body w).

(** The request, as far as the handler looks at it: [r.URL.Query()], a
    [url.Values] that maps each parameter name to the values given to it,
    in order. *)
Record Request := mkRequest {
  URL_Query : gmap string (list string)
}.

(** [%v] of a [url.Values]: [map[k1:[v1 v2] k2:[v3]]], keys in increasing
    order. *)
Definition fmt_Values (q : gmap string (list string)) : string :=
  let entry k := k +:+ ":[" +:+ Join (q !!! k) " " +:+ "]" in
  "map[" +:+ Join (entry <$> sort_Strings (map_to_list q).*1) " " +:+ "]".

(** What the upstream does when the handler fetches from it:
    [client.Get] fails, or [ioutil.ReadAll] of the body fails, or a status
    code and a body arrive. *)
Inductive Upstream :=
  | GetFails (err : string)
  | ReadFails (code : Z) (err : string)
  | Replies (code : Z) (content : string).

End Http.

(** ** The handler's state and control *)

Module Handler.
Import GoString Strconv Http.

(** The variables the closures of [infoRefs] share: the response writer [w],
    the unread rest of the upstream body [data], and (to observe them) the
    URLs fetched so far. *)
Record Env := mkEnv {
  w : ResponseWriter;
  data : string;
  fetched : list string
}.

Inductive Result (A : Type) :=
  | Returns (a : A) (e : Env)
  | Panics (msg : string) (e : Env)
  | OutOfFuel.
Arguments Returns {A} a e.
Arguments Panics {A} msg e.
Arguments OutOfFuel {A}.

Definition M (A : Type) : Type := Env → Result A.

Definition ret {A} (a : A) : M A := λ e, Returns a e.

Definition bind {A B} (m : M A) (k : A → M B) : M B := λ e,
  match m e with
  | Returns a e' => k a e'
  | Panics msg e' => Panics msg e'
  | OutOfFuel => OutOfFuel
  end.

Definition panic {A} (msg : string) : M A := λ e, Panics msg e.

Notation "'let*' p ':=' m 'in' k" := (bind m (λ p, k))
  (at level 10, p pattern, k at level 200).
Notation "m >> k" := (bind m (λ _, k))
  (at level 100, k at level 200, right associativity).

Definition on_w (f : ResponseWriter → ResponseWriter) : M unit := λ e,
  Returns () (mkEnv (f (w e)) (data e) (fetched e)).

Definition WriteHeader (code : Z) : M unit := on_w (rw_WriteHeader code).
Definition Write (b : string) : M unit := on_w (rw_Write b).
Definition Header_Set (key value : string) : M unit :=
  on_w (rw_Header_Set key value).

(** [fmt.Fprintf(w, ...)] with the text already formatted: one [Write]. *)
Definition Fprintf (text : string) : M unit := Write text.

Definition get_data : M string := λ e, Returns (data e) e.
Definition set_data (d : string) : M unit := λ e,
  Returns () (mkEnv (w e) d (fetched e)).

(** [client.Get(url)] followed by [ioutil.ReadAll]: the fetch is recorded
    and the upstream's answer is whatever [up] says. *)
Definition client_Get (url : string) (up : Upstream) : M Upstream := λ e,
  Returns up (mkEnv (w e) (data e) (fetched e ++ [url])).

Definition upstreamInfoRefs : string :=
  "https://github.com/google/gvisor.git/info/refs?service=git-upload-pack".

Definition serviceLine : string := "# service=git-upload-pack".
Definition target : string := "refs/heads/go".

(** The bytes [emitPkt] formats for a non-empty line. *)
Definition pktline (m : string) : string :=
  fmt_04x (4 + len m + 1) +:+ m +:+ String LF "".

(** [emitPkt] (main.go 295-305) *)
Definition emitPkt (m : string) : M unit :=
  if bool_decide (len m = 0) then Fprintf (fmt_04x 0)
  else Fprintf (pktline m).

(** [readPkt] (main.go 308-327).  [data[4:size]] makes the Go runtime panic
    when [size] is below 4 (negative included); the upper bound was checked
    on the line before. *)
Definition readPkt : M (string * bool) :=
  let* d := get_data in
  if bool_decide (len d < 4) then ret ("", false)
  else
    match ParseInt (slice d 0 4) 16 32 with
    | None => ret ("", false)
    | Some size =>
        if bool_decide (size = 0) then
          set_data (bytes_from 4 d) >> ret ("", true)
        else if bool_decide (len d >= size) then
          if bool_decide (size < 4) then
            panic "runtime error: slice bounds out of range"
          else
            let m := slice d 4 size in
            set_data (bytes_from (Z.to_nat size) d) >>
            ret (TrimSuffix m (String LF ""), true)
        else ret ("", false)
    end.

(** What [readRef] returns: [(hash, ref, options, ok)]. *)
Definition Ref : Type := string * string * list string * bool.

Definition invalid_reference (line : string) : M Ref :=
  WriteHeader StatusInternalServerError >>
  Fprintf ("invalid reference: " +:+ line) >>
  ret ("", "", [], false).

(** [readRef] (main.go 346-376).  A nil [options] slice is the empty list. *)
Definition readRef : M Ref :=
  let* (line, ok) := readPkt in
  if bool_decide (line = "") && ok then ret ("", "", [], true)
  else if negb ok || bool_decide (line = "") then invalid_reference line
  else
    let parts := Split line NUL in
    if bool_decide (2 < length parts)%nat then invalid_reference line
    else
      let options :=
        if bool_decide (length parts = 2%nat) then Split (parts !!! 1%nat) SP
        else [] in
      let parts := Split (parts !!! 0%nat) SP in
      if bool_decide (length parts ≠ 2%nat) then invalid_reference line
      else ret (parts !!! 0%nat, parts !!! 1%nat, options, true).

(** The loop of main.go 382-384: while the reference read last has an empty
    name and was read without error, read the next one. *)
Fixpoint skipEmpty (fuel : nat) (r : Ref) : M Ref :=
  match fuel with
  | O => λ _, OutOfFuel
  | S fuel' =>
      let '(_, first, _, ok) := r in
      if bool_decide (first = "") && ok then
        let* r' := readRef in skipEmpty fuel' r'
      else ret r
  end.

(** The rewrite of the options (main.go 390-395), index by index. *)
Definition rewriteOption (options : list string) (i : nat) : list string :=
  match options !! i with
  | Some option =>
      if HasPrefix option "symref=" then <[i := "symref=" +:+ target]> options
      else options
  | None => options
  end.

Definition rewriteOptions (options : list string) : list string :=
  foldl rewriteOption options (seq 0 (length options)).

(** The loop of main.go 400-410.  [None] is the [return] after a failed
    read; [Some (others, order)] is the [break] at the terminal. *)
Fixpoint readOthers (fuel : nat) (others : gmap string string)
    (order : list string) : M (option (gmap string string * list string)) :=
  match fuel with
  | O => λ _, OutOfFuel
  | S fuel' =>
      let* (refHash, other, _, ok) := readRef in
      if negb ok then ret None
      else if bool_decide (refHash = "") then ret (Some (others, order))
      else readOthers fuel' (<[other := refHash]> others) (order ++ [other])
  end.

(** The loop of main.go 439-446. *)
Fixpoint emitOthers (others : gmap string string) (order : list string)
  : M unit :=
  match order with
  | [] => ret ()
  | other :: order' =>
      match others !! other with
      | None => panic ("invalid other reference: " +:+ other)
      | Some hash =>
          emitPkt (hash +:+ " " +:+ other) >> emitOthers others order'
      end
  end.

(** The choice of main.go 419-431, given the hash [others[target]]: the
    hash and name of the first reference to emit, and the references to
    emit after it. *)
Definition promote (first targetHash : string)
    (others : gmap string string) (order : list string)
  : string * string * gmap string string * list string :=
  if bool_decide (first = "HEAD") then
    (targetHash, first, others, order)
  else
    let headHash := targetHash in
    let first := target in
    let others := <[first := headHash]> others in
    let order := order ++ [first] in
    let order := sort_Strings order in
    let others := delete target others in
    (headHash, first, others, order).

(** The response of main.go 433-447. *)
Definition emitAdvertisement (headHash first : string)
    (options : list string) (others : gmap string string)
    (order : list string) : M unit :=
  Header_Set "Content-Type" "application/x-git-upload-pack-advertisement" >>
  Header_Set "Cache-Control" "no-cache" >>
  emitPkt serviceLine >>
  emitPkt "" >>
  emitPkt (headHash +:+ " " +:+ first +:+ String NUL ""
           +:+ Join options " ") >>
  emitOthers others order >>
  emitPkt "".

(** main.go 381-384: the first reference, after any empty records.  A
    round of the loop that goes on has read four bytes of [data] or more,
    so the length of [data] bounds the rounds. *)
Definition readFirst : M Ref :=
  let* r := readRef in
  let* d := get_data in
  skipEmpty (2 + String.length d) r.

(** main.go 397-410: all other references. *)
Definition readAllOthers
  : M (option (gmap string string * list string)) :=
  let* d := get_data in
  readOthers (2 + String.length d) ∅ [].

(** The part of [infoRefs] after the upstream body was read with status 200
    (main.go 337-447). *)
Definition rewriteRefs : M unit :=
  let* (header, ok) := readPkt in
  if negb ok || bool_decide (header ≠ serviceLine) then
    WriteHeader StatusInternalServerError >>
    Fprintf ("invalid upstream header: " +:+ header)
  else
    let* (headHash, first, options, ok) := readFirst in
    if negb ok then ret ()
    else
      let options := rewriteOptions options in
      let* read := readAllOthers in
      match read with
      | None => ret ()
      | Some (others, order) =>
          match others !! target with
          | None =>
              WriteHeader StatusInternalServerError >>
              Fprintf ("invalid target reference: " +:+ target)
          | Some targetHash =>
              let '(headHash, first, others, order) :=
                promote first targetHash others order in
              emitAdvertisement headHash first options others order
          end
      end.

(** The test of main.go 263 on [r.URL.Query()]. *)
Definition badQuery (q : gmap string (list string)) : bool :=
  match q !! "service" with
  | None => true
  | Some vs =>
      bool_decide (1 < size q)%nat || bool_decide (length vs ≠ 1%nat)
      || bool_decide (vs !!! 0%nat ≠ "git-upload-pack")
  end.

(** main.go 272-447: what the handler does with the upstream's answer. *)
Definition forward (resp : Upstream) : M unit :=
  match resp with
  | GetFails err =>
      WriteHeader StatusInternalServerError >>
      Fprintf ("upstream get error: " +:+ err)
  | ReadFails _ err =>
      WriteHeader StatusInternalServerError >>
      Fprintf ("upstream read error: " +:+ err)
  | Replies code content =>
      if bool_decide (code ≠ 200) then
        WriteHeader code >> Write content
      else
        set_data content >> rewriteRefs
  end.

(** [infoRefs] (main.go 250-448) *)
Definition infoRefs (r : Request) (up : Upstream) : M unit :=
  if badQuery (URL_Query r) then
    WriteHeader StatusForbidden >>
    Fprintf ("invalid query: " +:+ fmt_Values (URL_Query r))
  else
    let* resp := client_Get upstreamInfoRefs up in
    forward resp.

(** One request served from a fresh response writer. *)
Definition serve (r : Request) (up : Upstream) : Result unit :=
  infoRefs r up (mkEnv newResponseWriter "" []).

End Handler.

(** ** Advertisements on the wire *)

Module Wire.
Import GoString Strconv Http Handler.

(** An advertisement as the upstream sends it: the service header, [blanks]
    records [0000] (the empty record the handler itself emits after the
    header), the first reference with its optional capability text after a
    NUL, the other references as [(hash, name)], a flush record. *)
Record Advert := mkAdvert {
  blanks : nat;
  head_hash : string;
  head_name : string;
  caps : option string;
  refs : list (string * string)
}.

Definition ref_line (r : string * string) : string :=
  r.1 +:+ " " +:+ r.2.

Definition first_line (a : Advert) : string :=
  ref_line (head_hash a, head_name a) +:+
  match caps a with
  | Some c => String NUL c
  | None => ""
  end.

Fixpoint flushes (n : nat) : string :=
  match n with
  | O => ""
  | S n' => "0000" +:+ flushes n'
  end.

Fixpoint ref_lines (l : list (string * string)) : string :=
  match l with
  | [] => ""
  | r :: l' => pktline (ref_line r) +:+ ref_lines l'
  end.

Definition wire (a : Advert) : string :=
  pktline serviceLine +:+ flushes (blanks a) +:+ pktline (first_line a)
  +:+ ref_lines (refs a) +:+ "0000".

(** The capability list [readRef] hands to the rewrite. *)
Definition options_of (a : Advert) : list string :=
  match caps a with
  | Some c => Split c SP
  | None => []
  end.

(** What main.go 391-394 makes of one option. *)
Definition rewritten (option : string) : string :=
  if HasPrefix option "symref=" then "symref=" +:+ target else option.

(** The map the loop of main.go 400-410 builds from the other references:
    a name listed twice keeps the hash listed last. *)
Definition others_of (l : list (string * string)) : gmap string string :=
  foldl (λ m r, <[r.2 := r.1]> m) ∅ l.

(** What the loop of main.go 439-446 emits for the names in [order] when
    each of them is in the map. *)
Definition entries_of (others : gmap string string) (order : list string)
  : list (string * string) :=
  (λ n, (others !!! n, n)) <$> order.

(** The advertisement the handler answers in the HEAD case: one empty
    record, HEAD at the hash the map has for the target, the rewritten
    options, and the names of the other references in their order, each
    with the hash the map has for it. *)
Definition rewrittenHEAD (a : Advert) : Advert :=
  mkAdvert 1 (others_of (refs a) !!! target) "HEAD"
    (Some (Join (rewriteOptions (options_of a)) " "))
    (entries_of (others_of (refs a)) (refs a).*2).

(** The header map of a rewritten advertisement (main.go 434-435). *)
Definition advertisementHeader : gmap string (list string) :=
  <["Cache-Control" := ["no-cache"]]>
    (<["Content-Type" := ["application/x-git-upload-pack-advertisement"]]> ∅).

(** Does the byte [c] occur in [s]? *)
Fixpoint has_byte (c : ascii) (s : string) : bool :=
  match s with
  | "" => false
  | String c' s' => bool_decide (c' = c) || has_byte c s'
  end.

(** Well-formed advertisements: hashes and names are non-empty and hold
    neither a space nor a NUL, the capability text holds no NUL, and every
    line fits a record of four length digits. *)
Definition token (s : string) : bool :=
  bool_decide (s ≠ "") && negb (has_byte SP s) && negb (has_byte NUL s).

Definition fits (line : string) : bool := bool_decide (len line ≤ 65530).

Definition wf_ref (r : string * string) : bool :=
  token r.1 && token r.2 && fits (ref_line r).

Definition wf (a : Advert) : bool :=
  token (head_hash a) && token (head_name a)
  && match caps a with Some c => negb (has_byte NUL c) | None => true end
  && fits (first_line a)
  && forallb wf_ref (refs a).

(** The bytes an action writes to a fresh response. *)
Definition emitted (act : M unit) : string :=
  match act (mkEnv newResponseWriter "" []) with
  | Returns _ e | Panics _ e => body (w e)
  | OutOfFuel => ""
  end.

(** [readPkt] applied [n] times: the payloads read and what is left of the
    buffer, or [None] as soon as one read is not ok. *)
Fixpoint readPkts (n : nat) (d : string) : option (list string * string) :=
  match n with
  | O => Some ([], d)
  | S n' =>
      match readPkt (mkEnv newResponseWriter d []) with
      | Returns (m, true) e =>
          match readPkts n' (data e) with
          | Some (ms, d') => Some (m :: ms, d')
          | None => None
          end
      | _ => None
      end
  end.

(** The references a body advertises, read with the handler's own readers:
    the service header, empty records, then [(hash, name)] of every
    reference up to the terminal. *)
Fixpoint collectRefs (fuel : nat) (acc : list (string * string))
  : M (option (list (string * string))) :=
  match fuel with
  | O => λ _, OutOfFuel
  | S fuel' =>
      let* (refHash, other, _, ok) := readRef in
      if negb ok then ret None
      else if bool_decide (refHash = "") then ret (Some acc)
      else collectRefs fuel' (acc ++ [(refHash, other)])
  end.

Definition readAdvert : M (option (list (string * string))) :=
  let* (header, ok) := readPkt in
  if negb ok || bool_decide (header ≠ serviceLine) then ret None
  else
    let* (headHash, first, _, ok) := readFirst in
    if negb ok then ret None
    else
      let* d := get_data in
      let* rest := collectRefs (2 + String.length d) [] in
      ret (cons (headHash, first) <$> rest).

Definition refs_of (d : string) : option (list (string * string)) :=
  match readAdvert (mkEnv newResponseWriter d []) with
  | Returns l _ => l
  | _ => None
  end.

(** The bytes of several records, one after the other. *)
Definition pkts (ms : list string) : string :=
  foldr (λ m rest, emitted (emitPkt m) +:+ rest) "" ms.

(** What a client receives: the status, the header map and the body of a
    handler that returned; nothing well-defined after a panic. *)
Definition response (r : Result unit) : option ResponseWriter :=
  match r with
  | Returns _ e => Some (w e)
  | _ => None
  end.

Definition upstream_calls (r : Result unit) : list string :=
  match r with
  | Returns _ e | Panics _ e => fetched e
  | OutOfFuel => []
  end.

(** An action is steady from [e] when it ends, by a return or a panic, with
    the same fetches on record and no more unread bytes than before. *)
Definition steady {A} (e : Env) (r : Result A) : Prop :=
  match r with
  | Returns _ e' | Panics _ e' =>
      fetched e' = fetched e
      ∧ (String.length (data e') ≤ String.length (data e))%nat
  | OutOfFuel => False
  end.

(** The request with the single parameter [service=git-upload-pack]. *)
Definition uploadPackRequest : Request :=
  mkRequest {[ "service" := ["git-upload-pack"] ]}.

End Wire.

(** ** Sample advertisements *)

Module Samples.
Import GoString Strconv Http Handler Wire.

Definition hashA : string := "aaaaaaaaaaaaaaaaaaaaaaaaaaaaaaaaaaaaaaaa".
Definition hashB : string := "bbbbbbbbbbbbbbbbbbbbbbbbbbbbbbbbbbbbbbbb".
Definition hashC : string := "cccccccccccccccccccccccccccccccccccccccc".

Definition listed : list (string * string) :=
  [(hashA, "refs/heads/main"); (hashB, "refs/heads/dev")].

(** The advertisement of the end-to-end example: HEAD first, with the
    symref capability and two more, then main and dev, and the target
    branch listed in addition, before the other two ([pos = 0]), between
    them ([pos = 1]) or after them. *)
Definition headFirst (pos : nat) : Advert :=
  mkAdvert 1 hashA "HEAD" (Some "symref=HEAD:refs/heads/main capA capB")
    (firstn pos listed ++ [(hashC, "refs/heads/go")] ++ skipn pos listed).

(** An advertisement that does not start with HEAD. *)
Definition branchFirst : Advert :=
  mkAdvert 1 hashA "refs/heads/a" (Some "symref=HEAD:refs/heads/main capA")
    [(hashA, "refs/heads/main"); (hashB, "refs/heads/dev");
     (hashC, "refs/heads/go")].

(** An advertisement without the target branch. *)
Definition noTarget : Advert :=
  mkAdvert 1 hashA "HEAD" (Some "symref=HEAD:refs/heads/main capA capB")
    listed.

(** A payload of 65531 bytes: with the four length digits and the newline
    its record has 65536 bytes, one more than four digits can count. *)
Definition longPayload : string :=
  N.iter 65531 (String "a"%char) "".

End Samples.

(** ** Counting bytes *)

Module Bytes.

(** How often the byte [c] occurs in [s]. *)
Fixpoint count_byte (c : ascii) (s : string) : nat :=
  match s with
  | "" => 0
  | String c' s' => (if decide (c' = c) then 1 else 0) + count_byte c s'
  end.

(** The bytes of [s] before the first [c]; all of [s] when it has none. *)
Fixpoint before (c : ascii) (s : string) : string :=
  match s with
  | "" => ""
  | String c' s' => if decide (c' = c) then "" else String c' (before c s')
  end.

End Bytes.

(** ** Outcomes of the readers *)

Module Outcomes.
Import GoString Http Handler.

(** The panic of the Go runtime in [readPkt]. *)
Definition slicePanic : string := "runtime error: slice bounds out of range".

(** [rw'] is [rw] after [readRef] has reported an invalid reference. *)
Definition refusal (rw rw' : ResponseWriter) : Prop :=
  ∃ line,
    rw' = rw_Write ("invalid reference: " +:+ line)
            (rw_WriteHeader StatusInternalServerError rw).

(** How a reader of references can end when it started with the response
    [rw]: ok, with nothing written; not ok, with the refusal written; in
    the panic of [readPkt], with nothing written. *)
Definition read_outcome (rw : ResponseWriter) (r : Result Ref) : Prop :=
  match r with
  | Returns (_, _, _, true) e' => w e' = rw
  | Returns (_, _, _, false) e' => refusal rw (w e')
  | Panics msg e' => msg = slicePanic ∧ w e' = rw
  | OutOfFuel => False
  end.

End Outcomes.

(** ** The redirect handlers *)

Module Redirects.
Import GoString.

Definition StatusMovedPermanently : Z := 301.
Definition StatusFound : Z := 302.
Definition StatusNotFound : Z := 404.

(** The table [prefixHelpers] (main.go 51-64).  A Go map; its keys are
    distinct and the order in which it is ranged over is not specified. *)
Definition prefixHelpers : list (string * string) :=
  [ ("change", "https://github.com/google/gvisor/commit/%s");
    ("issue", "https://github.com/google/gvisor/issues/%s");
    ("pull", "https://github.com/google/gvisor/pull/%s");
    ("c/linux/amd64", "/docs/user_guide/compatibility/amd64/#%s");
    ("gvisor", "https://github.com/google/gvisor/tree/go/%s");
    ("cl", "https://gvisor-review.googlesource.com/c/gvisor/+/%s") ].

(** Regular expressions, as far as [validId] needs them, matched byte by
    byte with derivatives.  (Go matches runes; a byte above 127 is in no
    class used here and is no literal, as a rune or as a part of one.) *)
Inductive Regexp :=
  | Fail
  | Eps
  | Lit (c : ascii)
  | Class (p : ascii → bool)
  | Alt (r1 r2 : Regexp)
  | Concat (r1 r2 : Regexp)
  | Quest (r : Regexp)
  | Star (r : Regexp).

Fixpoint nullable (r : Regexp) : bool :=
  match r with
  | Fail | Lit _ | Class _ => false
  | Eps | Quest _ | Star _ => true
  | Alt r1 r2 => nullable r1 || nullable r2
  | Concat r1 r2 => nullable r1 && nullable r2
  end.

Fixpoint deriv (c : ascii) (r : Regexp) : Regexp :=
  match r with
  | Fail | Eps => Fail
  | Lit c' => if decide (c' = c) then Eps else Fail
  | Class p => if p c then Eps else Fail
  | Alt r1 r2 => Alt (deriv c r1) (deriv c r2)
  | Concat r1 r2 =>
      if nullable r1 then Alt (Concat (deriv c r1) r2) (deriv c r2)
      else Concat (deriv c r1) r2
  | Quest r1 => deriv c r1
  | Star r1 => Concat (deriv c r1) (Star r1)
  end.

(** [re.MatchString(s)] for an expression anchored by [^] and [$] (without
    the multi-line flag): the whole of [s] has to match. *)
Fixpoint MatchString (re : Regexp) (s : string) : bool :=
  match s with
  | "" => nullable re
  | String c s' => MatchString (deriv c re) s'
  end.

(** The class [[A-Za-z0-9-]]. *)
Definition idByte (c : ascii) : bool :=
  let b := Z.of_N (N_of_ascii c) in
  bool_decide (65 ≤ b ≤ 90) || bool_decide (97 ≤ b ≤ 122)
  || bool_decide (48 ≤ b ≤ 57) || bool_decide (b = 45).

(** [validId] (main.go 67): [^[A-Za-z0-9-]*/?$] *)
Definition validId : Regexp :=
  Concat (Star (Class idByte)) (Quest (Lit "/"%char)).

Definition quote : string := String "034"%char "".

(** [goGetHeader] and [goGetHTML5] (main.go 68-69) *)
Definition goGetHeader : string :=
  "<meta name=" +:+ quote +:+ "go-import" +:+ quote +:+ " content="
  +:+ quote +:+ "gvisor.dev/gvisor git https://gvisor.dev/gvisor"
  +:+ quote +:+ ">".

Definition goGetHTML5 : string :=
  "<!doctype html><html><head><meta charset=utf-8>" +:+ goGetHeader
  +:+ "<title>Go-get</title></head><body></html>".

(** What these handlers look at in a request: [r.Host], [r.URL.Path],
    [r.URL.RawQuery] and [r.URL.Query()]. *)
Record HttpRequest := mkHttpRequest {
  Host : string;
  URL_Path : string;
  URL_RawQuery : string;
  Query : gmap string (list string)
}.

(** What a handler does to answer: every path through the handlers below
    ends in one call of net/http, or in a panic of the Go runtime. *)
Inductive Served :=
  | Redirect (url : string) (code : Z)
  | Error (text : string) (code : Z)
  | Written (b : string)
  | Panic (msg : string)
  | BadFormat.

(** [fmt.Sprintf(format, arg)] with one string argument, for formats made
    of plain bytes, [%s] and [%%]; [None] for any other verb or flag. *)
Fixpoint Sprintf_go (format arg : string) (used : bool) : option string :=
  match format with
  | "" => Some (if used then "" else "%!(EXTRA string=" +:+ arg +:+ ")")
  | String c rest =>
      if decide (c = "%"%char) then
        match rest with
        | "" => Some ("%!(NOVERB)" +:+
                      if used then "" else "%!(EXTRA string=" +:+ arg +:+ ")")
        | String v rest' =>
            if decide (v = "s"%char) then
              (λ t, (if used then "%!s(MISSING)" else arg) +:+ t)
                <$> Sprintf_go rest' arg true
            else if decide (v = "%"%char) then
              String "%"%char <$> Sprintf_go rest' arg used
            else None
        end
      else String c <$> Sprintf_go rest arg used
  end.

Definition Sprintf (format arg : string) : option string :=
  Sprintf_go format arg false.

(** [wrappedHandler] (main.go 76-87) *)
Definition wrappedHandler (h : HttpRequest → Served) (r : HttpRequest)
  : Served :=
  match Query r !! "go-get" with
  | Some gg =>
      if bool_decide (length gg = 1%nat) && bool_decide (gg !!! 0%nat = "1")
      then Written goGetHTML5
      else h r
  | None => h r
  end.

(** [redirectWithQuery] (main.go 90-96) *)
Definition redirectWithQuery (r : HttpRequest) (target : string) : Served :=
  let url :=
    if bool_decide (URL_RawQuery r ≠ "") then
      target +:+ "?" +:+ URL_RawQuery r
    else target in
  Redirect url StatusFound.

(** [hostRedirectHandler] (main.go 99-110).  [URL_String scheme host r] is
    [r.URL.String()] once the scheme and the host of [r.URL] are set. *)
Definition hostRedirectHandler
    (URL_String : string → string → HttpRequest → string)
    (h : HttpRequest → Served) (r : HttpRequest) : Served :=
  if HasPrefix (Host r) "www." then
    Redirect (URL_String "https" (bytes_from 4 (Host r)) r)
      StatusMovedPermanently
  else h r.

(** [prefixRedirectHandler] (main.go 113-128).  Both slice expressions
    make the Go runtime panic when their bound is out of range. *)
Definition prefixRedirectHandler (prefix baseURL : string)
    (r : HttpRequest) : Served :=
  let p := URL_Path r in
  if bool_decide (p = prefix) then
    if bool_decide (len p - 1 < 0) then
      Panic "runtime error: slice bounds out of range"
    else Redirect (bytes_to (Z.to_nat (len p - 1)) p) StatusFound
  else if bool_decide (len prefix > len p) then
    Panic "runtime error: slice bounds out of range"
  else
    let id := bytes_from (Z.to_nat (len prefix)) p in
    if negb (MatchString validId id) then Error "Not found" StatusNotFound
    else
      match Sprintf baseURL id with
      | Some target => redirectWithQuery r target
      | None => BadFormat
      end.

(** [redirectHandler] (main.go 131-135) *)
Definition redirectHandler (target : string) (r : HttpRequest) : Served :=
  redirectWithQuery r target.

(** The handler [registerRedirects] (main.go 143-146) registers under the
    pattern ["/" + prefix + "/"]. *)
Definition prefixRoute
    (URL_String : string → string → HttpRequest → string)
    (prefix baseURL : string) : string * (HttpRequest → Served) :=
  let p := "/" +:+ prefix +:+ "/" in
  (p, hostRedirectHandler URL_String
        (wrappedHandler (prefixRedirectHandler p baseURL))).

(** The shape [validId] asks for: bytes of the class, then at most one
    slash. *)
Fixpoint idShape (s : string) : bool :=
  match s with
  | "" => true
  | String c s' =>
      if idByte c then idShape s'
      else bool_decide (c = "/"%char) && bool_decide (s' = "")
  end.

(** Does every byte of [s] satisfy [p]? *)
Fixpoint all_bytes (p : ascii → bool) (s : string) : bool :=
  match s with
  | "" => true
  | String c s' => p c && all_bytes p s'
  end.

(** The strings an expression stands for. *)
Definition flatten (l : list string) : string := foldr String.append "" l.

Fixpoint lang (r : Regexp) (s : string) : Prop :=
  match r with
  | Fail => False
  | Eps => s = ""
  | Lit c => s = String c ""
  | Class p => ∃ c, p c = true ∧ s = String c ""
  | Alt r1 r2 => lang r1 s ∨ lang r2 s
  | Concat r1 r2 => ∃ s1 s2, s = s1 +:+ s2 ∧ lang r1 s1 ∧ lang r2 s2
  | Quest r1 => s = "" ∨ lang r1 s
  | Star r1 => ∃ l, s = flatten l ∧ Forall (lang r1) l
  end.

End Redirects.

(** * Properties *)

(** ** Strings *)

Module StringFacts.
Import GoString.

Lemma app_nil_l (b : string) : "" +:+ b = b.
Proof. reflexivity. Qed.

Lemma app_cons (x : ascii) (a b : string) :
  String x a +:+ b = String x (a +:+ b).
Proof. reflexivity. Qed.

Lemma app_assoc (a b c : string) : (a +:+ b) +:+ c = a +:+ (b +:+ c).
Proof.
  induction a as [|x a IH]; [done|]. by rewrite !app_cons, IH.
Qed.

Lemma app_nil_r (a : string) : a +:+ "" = a.
Proof. induction a as [|x a IH]; [done|]. by rewrite app_cons, IH. Qed.

Lemma length_app (a b : string) :
  String.length (a +:+ b) = (String.length a + String.length b)%nat.
Proof.
  induction a as [|x a IH]; [done|]. rewrite app_cons. simpl. by rewrite IH.
Qed.

Lemma len_app (a b : string) : len (a +:+ b) = len a + len b.
Proof. unfold len. rewrite length_app. lia. Qed.

Lemma len_nonneg (a : string) : 0 ≤ len a.
Proof. unfold len. lia. Qed.

Lemma len_cons (c : ascii) (a : string) : len (String c a) = 1 + len a.
Proof. unfold len. simpl. lia. Qed.

Lemma len_zero (a : string) : len a = 0 ↔ a = "".
Proof. unfold len. destruct a; simpl; split; intros; (done || lia). Qed.

Lemma bytes_to_app (a b : string) :
  bytes_to (String.length a) (a +:+ b) = a.
Proof.
  induction a as [|x a IH]; [by destruct b|].
  rewrite app_cons. simpl. by rewrite IH.
Qed.

Lemma bytes_from_app (a b : string) :
  bytes_from (String.length a) (a +:+ b) = b.
Proof. induction a as [|x a IH]; [done|]. rewrite app_cons. by simpl. Qed.

Lemma TrimSuffix_app (a suffix : string) :
  TrimSuffix (a +:+ suffix) suffix = a.
Proof.
  unfold TrimSuffix, HasSuffix. rewrite len_app.
  replace (Z.to_nat (len a + len suffix - len suffix))
    with (String.length a) by (unfold len; lia).
  rewrite bytes_from_app, bytes_to_app, !bool_decide_eq_true_2; [done..|].
  pose proof (len_nonneg a). lia.
Qed.

End StringFacts.

(** ** Four-digit lengths *)

Module HexFacts.
Import GoString Strconv.

Ltac each_digit d :=
  let H := fresh in
  assert (d = 0 ∨ d = 1 ∨ d = 2 ∨ d = 3 ∨ d = 4 ∨ d = 5 ∨ d = 6 ∨ d = 7
          ∨ d = 8 ∨ d = 9 ∨ d = 10 ∨ d = 11 ∨ d = 12 ∨ d = 13 ∨ d = 14
          ∨ d = 15) as H by lia;
  repeat (destruct H as [-> | H]); [..| subst d].

Ltac div_lia := Z.div_mod_to_equations; lia.

Lemma digitval_hexchar (d : Z) : 0 ≤ d < 16 → digitval (hexchar d) = Some d.
Proof. intros Hd. each_digit d; reflexivity. Qed.

Lemma hexchar_no_sign (d : Z) :
  0 ≤ d < 16 → hexchar d ≠ "-"%char ∧ hexchar d ≠ "+"%char.
Proof. intros Hd. each_digit d; split; discriminate. Qed.

Lemma hex_digits_small (fuel : nat) (n : Z) :
  n < 16 → hex_digits (S fuel) n = String (hexchar n) "".
Proof. intros. simpl. by rewrite bool_decide_eq_true_2. Qed.

Lemma hex_digits_step (fuel : nat) (n : Z) :
  16 ≤ n →
  hex_digits (S fuel) n
  = hex_digits fuel (n / 16) +:+ String (hexchar (n mod 16)) "".
Proof. intros. simpl. rewrite bool_decide_eq_false_2; [done | lia]. Qed.

Lemma fmt_04x_hex4 (n : Z) : 0 ≤ n < 65536 → fmt_04x n = hex4 n.
Proof.
  intros Hn. unfold fmt_04x, hex4.
  assert (n / 16 / 16 = n / 256) as E2 by div_lia.
  assert (n / 16 / 16 / 16 = n / 4096) as E3 by div_lia.
  destruct (decide (n < 16)) as [H1|H1].
  { rewrite hex_digits_small by done. simpl.
    rewrite !Z.div_small, (Z.mod_small n) by div_lia. done. }
  rewrite hex_digits_step by div_lia.
  destruct (decide (n < 256)) as [H2|H2].
  { rewrite hex_digits_small by div_lia. simpl.
    rewrite (Z.div_small n 4096), (Z.div_small n 256) by div_lia.
    rewrite (Z.mod_small (n / 16)) by div_lia. done. }
  rewrite hex_digits_step by div_lia.
  destruct (decide (n < 4096)) as [H3|H3].
  { rewrite hex_digits_small by div_lia. simpl.
    rewrite (Z.div_small n 4096) by div_lia.
    rewrite E2, (Z.mod_small (n / 256)) by div_lia. done. }
  rewrite hex_digits_step by div_lia.
  rewrite hex_digits_small by div_lia. simpl.
  rewrite E3, E2. done.
Qed.

Lemma ParseInt_hex4 (n : Z) :
  0 ≤ n < 65536 → ParseInt (hex4 n) 16 32 = Some n.
Proof.
  intros Hn. unfold hex4, ParseInt.
  assert (0 ≤ n / 4096 < 16) as H3 by div_lia.
  assert (0 ≤ n / 256 mod 16 < 16) as H2 by div_lia.
  assert (0 ≤ n / 16 mod 16 < 16) as H1 by div_lia.
  assert (0 ≤ n mod 16 < 16) as H0 by div_lia.
  destruct (hexchar_no_sign _ H3) as [Hm Hp].
  rewrite (bool_decide_eq_false_2 _ Hm), (bool_decide_eq_false_2 _ Hp).
  unfold ParseUint. rewrite bool_decide_eq_false_2 by done.
  cbn [parse_digits orb negb andb].
  rewrite !digitval_hexchar by done.
  rewrite !(bool_decide_eq_false_2 (_ >= 16)) by div_lia.
  assert (((0 * 16 + n / 4096) * 16 + n / 256 mod 16) * 16
           + n / 16 mod 16 = n / 16) as -> by div_lia.
  assert (n / 16 * 16 + n mod 16 = n) as -> by div_lia.
  rewrite !bool_decide_eq_false_2 by div_lia. done.
Qed.

Lemma length_hex4 (n : Z) : String.length (hex4 n) = 4%nat.
Proof. done. Qed.

End HexFacts.

(** ** The record codec *)

Module CodecFacts.
Import GoString Strconv Http Handler Wire StringFacts HexFacts.

Lemma length_bytes_from (n : nat) (s : string) :
  String.length (bytes_from n s) = (String.length s - n)%nat.
Proof.
  revert s. induction n as [|n IH]; intros [|c s]; simpl; try done.
Qed.

Lemma pktline_hex4 (m : string) :
  len m ≤ 65530 → pktline m = hex4 (len m + 5) +:+ m +:+ String LF "".
Proof.
  intros Hm. unfold pktline. pose proof (len_nonneg m).
  replace (4 + len m + 1) with (len m + 5) by lia.
  by rewrite fmt_04x_hex4 by lia.
Qed.

(** Reading back one record that [emitPkt] formatted, whatever follows it
    in the buffer. *)
Lemma readPkt_pktline (rw : ResponseWriter) (m rest : string)
    (f : list string) :
  len m ≤ 65530 →
  readPkt (mkEnv rw (pktline m +:+ rest) f)
  = Returns (m, true) (mkEnv rw rest f).
Proof.
  intros Hm. pose proof (len_nonneg m) as Hm0. pose proof (len_nonneg rest).
  rewrite pktline_hex4 by done.
  set (n := len m + 5).
  unfold readPkt, bind, get_data, set_data, ret. cbn [data w fetched].
  assert (len ((hex4 n +:+ m +:+ String LF "") +:+ rest) = n + len rest)
    as Hlen.
  { rewrite !len_app. unfold len at 1 3. simpl. lia. }
  rewrite Hlen, bool_decide_eq_false_2 by lia.
  assert (slice ((hex4 n +:+ m +:+ String LF "") +:+ rest) 0 4 = hex4 n) as ->
    by done.
  rewrite ParseInt_hex4 by lia.
  rewrite (bool_decide_eq_false_2 (n = 0)) by lia.
  rewrite (bool_decide_eq_true_2 (_ >= n)) by lia.
  rewrite (bool_decide_eq_false_2 (n < 4)) by lia.
  assert (Z.to_nat (n - 4) = String.length (m +:+ String LF "")) as Hn4.
  { rewrite length_app. unfold n, len. simpl. lia. }
  unfold slice. rewrite Hn4.
  change (bytes_from (Z.to_nat 4) ((hex4 n +:+ m +:+ String LF "") +:+ rest))
    with ((m +:+ String LF "") +:+ rest).
  rewrite bytes_to_app, TrimSuffix_app.
  replace (Z.to_nat n) with (4 + String.length (m +:+ String LF ""))%nat
    by lia.
  change (bytes_from (4 + ?k) ((hex4 n +:+ ?x) +:+ rest))
    with (bytes_from k (x +:+ rest)).
  by rewrite bytes_from_app.
Qed.

(** A flush record reads as an empty line, ok. *)
Lemma readPkt_flush (rw : ResponseWriter) (rest : string) (f : list string) :
  readPkt (mkEnv rw ("0000" +:+ rest) f) = Returns ("", true) (mkEnv rw rest f).
Proof.
  unfold readPkt, bind, get_data, set_data, ret. cbn [data w fetched].
  pose proof (len_nonneg rest).
  rewrite bool_decide_eq_false_2; [done|].
  rewrite len_app. unfold len at 1. simpl. lia.
Qed.

(** At the end of the buffer there is nothing to read. *)
Lemma readPkt_eof (rw : ResponseWriter) (f : list string) :
  readPkt (mkEnv rw "" f) = Returns ("", false) (mkEnv rw "" f).
Proof. done. Qed.

(** Every outcome of [readPkt], by the length field [data[:4]]. *)
Lemma readPkt_cases (e : Env) :
  let d := data e in
  let size := ParseInt (slice d 0 4) 16 32 in
  let moved (n : nat) := mkEnv (w e) (bytes_from n d) (fetched e) in
  (readPkt e = Returns ("", false) e ∧
     (len d < 4 ∨ size = None ∨ ∃ n, size = Some n ∧ n ≠ 0 ∧ len d < n))
  ∨ (readPkt e = Returns ("", true) (moved 4%nat) ∧ 4 ≤ len d ∧ size = Some 0)
  ∨ (∃ n, readPkt e
          = Returns (TrimSuffix (slice d 4 n) (String LF ""), true)
              (moved (Z.to_nat n))
          ∧ size = Some n ∧ 4 ≤ n ≤ len d)
  ∨ (∃ n, readPkt e = Panics "runtime error: slice bounds out of range" e
          ∧ 4 ≤ len d ∧ size = Some n ∧ n ≠ 0 ∧ n < 4).
Proof.
  destruct e as [rw d f]. cbn [data w fetched].
  unfold readPkt, bind, get_data, set_data, ret, panic. cbn [data w fetched].
  case_bool_decide as H4; [left; split; [done | by left]|].
  destruct (ParseInt (slice d 0 4) 16 32) as [n|] eqn:Hsize;
    [|left; split; [done | by right; left]].
  case_bool_decide as H0.
  { subst n. right; left. split_and!; [done | lia | done]. }
  case_bool_decide as Hge.
  - case_bool_decide as Hlt.
    + right; right; right. exists n. split_and!; (done || lia).
    + right; right; left. exists n. split_and!; (done || lia).
  - left. split; [done|]. right; right. exists n. split_and!; (done || lia).
Qed.

(** A read that is ok takes at least four bytes from the buffer; a read
    that is not leaves everything as it was; no read writes a response. *)
Lemma readPkt_progress (e e' : Env) (m : string) (ok : bool) :
  readPkt e = Returns (m, ok) e' →
  w e' = w e ∧ fetched e' = fetched e ∧
  if ok then (4 + String.length (data e') ≤ String.length (data e))%nat
  else e' = e.
Proof.
  intros Hr.
  destruct (readPkt_cases e)
    as [[H _]|[[H [Hl _]]|[(n & H & _ & Hn)|(n & H & _)]]];
    rewrite H in Hr; destruct e as [rw d f]; simplify_eq;
    cbn [data w fetched] in *; try done.
  - split_and!; [done..|]. rewrite length_bytes_from. unfold len in Hl. lia.
  - split_and!; [done..|]. rewrite length_bytes_from. unfold len in Hn. lia.
Qed.

End CodecFacts.

(** ** Reference lines *)

Module RefFacts.
Import GoString Strconv Http Handler Wire StringFacts HexFacts CodecFacts.

Lemma has_byte_app (c : ascii) (a b : string) :
  has_byte c (a +:+ b) = has_byte c a || has_byte c b.
Proof.
  induction a as [|x a IH]; [done|].
  rewrite app_cons. simpl. by rewrite IH, orb_assoc.
Qed.

Lemma Split_nonempty (s : string) (sep : ascii) : Split s sep ≠ [].
Proof.
  induction s as [|c s IH]; simpl; [done|].
  case_decide; [done|]. by destruct (Split s sep).
Qed.

Lemma Split_none (s : string) (sep : ascii) :
  has_byte sep s = false → Split s sep = [s].
Proof.
  induction s as [|c s IH]; simpl; [done|].
  intros [Hc Hs]%orb_false_elim. apply bool_decide_eq_false in Hc.
  rewrite decide_False by done. by rewrite IH.
Qed.

Lemma Split_app (s t : string) (sep : ascii) :
  has_byte sep s = false →
  Split (s +:+ String sep t) sep = s :: Split t sep.
Proof.
  induction s as [|c s IH].
  - intros _. rewrite app_nil_l. simpl. by rewrite decide_True.
  - simpl. intros [Hc Hs]%orb_false_elim. apply bool_decide_eq_false in Hc.
    rewrite ?app_cons. simpl. rewrite decide_False by done. by rewrite IH.
Qed.

Lemma token_spec (s : string) :
  token s = true → s ≠ "" ∧ has_byte SP s = false ∧ has_byte NUL s = false.
Proof.
  unfold token. intros [[H1 H2]%andb_prop H3]%andb_prop.
  apply bool_decide_eq_true in H1.
  apply negb_true_iff in H2, H3. done.
Qed.

Lemma wf_ref_spec (r : string * string) :
  wf_ref r = true →
  token r.1 = true ∧ token r.2 = true ∧ len (ref_line r) ≤ 65530.
Proof.
  unfold wf_ref, fits. intros [[H1 H2]%andb_prop H3]%andb_prop.
  by apply bool_decide_eq_true in H3.
Qed.

Lemma ref_line_parts (h n : string) :
  token h = true → token n = true →
  ref_line (h, n) ≠ "" ∧ has_byte NUL (ref_line (h, n)) = false
  ∧ Split (ref_line (h, n)) SP = [h; n].
Proof.
  intros (Hh & Hhs & Hhz)%token_spec (Hn & Hns & Hnz)%token_spec.
  unfold ref_line. cbn [fst snd]. split_and!.
  - destruct h; [done|]. by rewrite app_cons.
  - rewrite has_byte_app, Hhz. change (" " +:+ n) with (String SP n).
    simpl. by rewrite Hnz.
  - change (" " +:+ n) with (String SP n).
    by rewrite Split_app, Split_none.
Qed.

Lemma invalid_reference_eq (line : string) (rw : ResponseWriter)
    (d : string) (f : list string) :
  invalid_reference line (mkEnv rw d f)
  = Returns ("", "", [], false)
      (mkEnv (rw_Write ("invalid reference: " +:+ line)
                (rw_WriteHeader StatusInternalServerError rw)) d f).
Proof. done. Qed.

(** A well-formed reference line reads back as its hash and name. *)
Lemma readRef_ref (rw : ResponseWriter) (r : string * string)
    (rest : string) (f : list string) :
  wf_ref r = true →
  readRef (mkEnv rw (pktline (ref_line r) +:+ rest) f)
  = Returns (r.1, r.2, [], true) (mkEnv rw rest f).
Proof.
  intros (Hh & Hn & Hfit)%wf_ref_spec. destruct r as [h n].
  destruct (ref_line_parts h n Hh Hn) as (Hne & Hz & Hsp).
  unfold readRef. unfold bind at 1. rewrite readPkt_pktline by done.
  rewrite (bool_decide_eq_false_2 (_ = "")) by done. cbn [andb negb orb].
  rewrite Split_none by done. simpl. rewrite Hsp. simpl.
  by repeat case_bool_decide.
Qed.

(** So does a well-formed first line, with its capabilities split. *)
Lemma readRef_first (rw : ResponseWriter) (a : Advert) (rest : string)
    (f : list string) :
  wf a = true →
  readRef (mkEnv rw (pktline (first_line a) +:+ rest) f)
  = Returns (head_hash a, head_name a, options_of a, true) (mkEnv rw rest f).
Proof.
  unfold wf, fits.
  intros [[[[Hh Hn]%andb_prop Hc]%andb_prop Hfit]%andb_prop _]%andb_prop.
  apply bool_decide_eq_true in Hfit.
  destruct (ref_line_parts _ _ Hh Hn) as (Hne & Hz & Hsp).
  unfold readRef. unfold bind at 1. rewrite readPkt_pktline by done.
  assert (first_line a ≠ "") as Hne'.
  { unfold first_line. destruct (ref_line _); [done|]. by rewrite app_cons. }
  rewrite (bool_decide_eq_false_2 (_ = "")) by done. cbn [andb negb orb].
  unfold first_line, options_of in *. destruct (caps a) as [c|].
  - apply negb_true_iff in Hc.
    rewrite Split_app, (Split_none c) by done. simpl. rewrite Hsp. simpl.
    by repeat case_bool_decide.
  - rewrite app_nil_r, Split_none by done. simpl. rewrite Hsp. simpl.
    by repeat case_bool_decide.
Qed.

Lemma readRef_flush (rw : ResponseWriter) (rest : string) (f : list string) :
  readRef (mkEnv rw ("0000" +:+ rest) f)
  = Returns ("", "", [], true) (mkEnv rw rest f).
Proof. unfold readRef. unfold bind at 1. by rewrite readPkt_flush. Qed.

Lemma readRef_eof (rw : ResponseWriter) (f : list string) :
  readRef (mkEnv rw "" f)
  = Returns ("", "", [], false)
      (mkEnv (rw_Write "invalid reference: "
                (rw_WriteHeader StatusInternalServerError rw)) "" f).
Proof. done. Qed.

End RefFacts.

(** ** The two reading loops on a well-formed advertisement *)

Module LoopFacts.
Import GoString Strconv Http Handler Wire.
Import StringFacts HexFacts CodecFacts RefFacts.

Lemma length_flushes (k : nat) : (k ≤ String.length (flushes k))%nat.
Proof.
  induction k as [|k IH]; [done|].
  cbn [flushes]. rewrite length_app. simpl. lia.
Qed.

Lemma length_ref_lines (l : list (string * string)) :
  (length l ≤ String.length (ref_lines l))%nat.
Proof.
  induction l as [|r l IH]; [done|].
  cbn [ref_lines length]. unfold pktline. rewrite !length_app. simpl. lia.
Qed.

Lemma wf_head_name (a : Advert) : wf a = true → head_name a ≠ "".
Proof.
  unfold wf.
  intros [[[[_ Hn]%andb_prop _]%andb_prop _]%andb_prop _]%andb_prop.
  by apply token_spec in Hn as [? _].
Qed.

Lemma wf_refs (a : Advert) : wf a = true → forallb wf_ref (refs a) = true.
Proof. unfold wf. by intros [_ ?]%andb_prop. Qed.

Lemma skipEmpty_wire (a : Advert) (k fuel : nat) (rw : ResponseWriter)
    (rest : string) (f : list string) :
  wf a = true → (k + 1 < fuel)%nat →
  skipEmpty fuel ("", "", [], true)
    (mkEnv rw (flushes k +:+ pktline (first_line a) +:+ rest) f)
  = Returns (head_hash a, head_name a, options_of a, true) (mkEnv rw rest f).
Proof.
  intros Hwf. revert fuel. induction k as [|k IH]; intros fuel Hfuel.
  - destruct fuel as [|[|fuel]]; [lia..|].
    cbn [skipEmpty flushes]. rewrite app_nil_l.
    rewrite bool_decide_eq_true_2 by done. cbn [andb].
    unfold bind. rewrite readRef_first by done.
    rewrite bool_decide_eq_false_2 by by apply wf_head_name. done.
  - destruct fuel as [|fuel]; [lia|].
    cbn [skipEmpty flushes]. rewrite app_assoc.
    rewrite bool_decide_eq_true_2 by done. cbn [andb].
    unfold bind. rewrite readRef_flush. apply IH. lia.
Qed.

(** The first reference of a well-formed advertisement, behind its empty
    records. *)
Lemma readFirst_wire (a : Advert) (rw : ResponseWriter) (rest : string)
    (f : list string) :
  wf a = true →
  readFirst
    (mkEnv rw (flushes (blanks a) +:+ pktline (first_line a) +:+ rest) f)
  = Returns (head_hash a, head_name a, options_of a, true) (mkEnv rw rest f).
Proof.
  intros Hwf. unfold readFirst. destruct (blanks a) as [|k].
  - cbn [flushes]. rewrite app_nil_l.
    unfold bind, get_data. rewrite readRef_first by done. cbn [data].
    cbn [Nat.add skipEmpty].
    rewrite bool_decide_eq_false_2 by by apply wf_head_name. done.
  - cbn [flushes]. rewrite app_assoc.
    unfold bind, get_data. rewrite readRef_flush. cbn [data].
    apply skipEmpty_wire; [done|].
    rewrite length_app. pose proof (length_flushes k). lia.
Qed.

(** The other references of a well-formed advertisement: the map of their
    hashes and the list of their names. *)
Lemma readOthers_wire (l : list (string * string)) (fuel : nat)
    (others : gmap string string) (order : list string)
    (rw : ResponseWriter) (rest : string) (f : list string) :
  forallb wf_ref l = true → (length l < fuel)%nat →
  readOthers fuel others order
    (mkEnv rw (ref_lines l +:+ "0000" +:+ rest) f)
  = Returns (Some (foldl (λ m r, <[r.2 := r.1]> m) others l, order ++ l.*2))
      (mkEnv rw rest f).
Proof.
  revert fuel others order.
  induction l as [|r l IH]; intros fuel others order Hwf Hfuel.
  - destruct fuel as [|fuel]; [simpl in Hfuel; lia|].
    cbn [readOthers ref_lines]. rewrite app_nil_l.
    unfold bind. rewrite readRef_flush. cbn [negb].
    rewrite bool_decide_eq_true_2 by done. simpl.
    by rewrite (right_id_L [] (++)).
  - destruct fuel as [|fuel]; [simpl in Hfuel; lia|].
    cbn [forallb] in Hwf. apply andb_prop in Hwf as [Hr Hl].
    cbn [readOthers ref_lines]. rewrite app_assoc.
    unfold bind. rewrite readRef_ref by done. cbn [negb].
    apply wf_ref_spec in Hr as [[Hh _]%token_spec _].
    rewrite bool_decide_eq_false_2 by done.
    rewrite IH by (done || simpl in Hfuel; lia).
    cbn [foldl fmap list_fmap]. by rewrite <- (assoc_L (++)).
Qed.

Lemma readAllOthers_wire (l : list (string * string)) (rw : ResponseWriter)
    (f : list string) :
  forallb wf_ref l = true →
  readAllOthers (mkEnv rw (ref_lines l +:+ "0000") f)
  = Returns (Some (others_of l, l.*2)) (mkEnv rw "" f).
Proof.
  intros Hwf. unfold readAllOthers, bind, get_data. cbn [data].
  rewrite <- (app_nil_r "0000") at 2.
  rewrite readOthers_wire; [done..|].
  rewrite length_app. pose proof (length_ref_lines l). lia.
Qed.

Lemma collectRefs_wire (l : list (string * string)) (fuel : nat)
    (acc : list (string * string)) (rw : ResponseWriter) (rest : string)
    (f : list string) :
  forallb wf_ref l = true → (length l < fuel)%nat →
  collectRefs fuel acc (mkEnv rw (ref_lines l +:+ "0000" +:+ rest) f)
  = Returns (Some (acc ++ l)) (mkEnv rw rest f).
Proof.
  revert fuel acc.
  induction l as [|r l IH]; intros fuel acc Hwf Hfuel.
  - destruct fuel as [|fuel]; [simpl in Hfuel; lia|].
    cbn [collectRefs ref_lines]. rewrite app_nil_l.
    unfold bind. rewrite readRef_flush. cbn [negb].
    rewrite bool_decide_eq_true_2 by done. simpl.
    by rewrite (right_id_L [] (++)).
  - destruct fuel as [|fuel]; [simpl in Hfuel; lia|].
    cbn [forallb] in Hwf. apply andb_prop in Hwf as [Hr Hl].
    cbn [collectRefs ref_lines]. rewrite app_assoc.
    unfold bind. rewrite readRef_ref by done. cbn [negb].
    apply wf_ref_spec in Hr as [[Hh _]%token_spec _].
    rewrite bool_decide_eq_false_2 by done.
    rewrite IH by (done || simpl in Hfuel; lia).
    destruct r. by rewrite <- (assoc_L (++)).
Qed.

End LoopFacts.

(** ** Emitting the rewritten advertisement *)

Module EmitFacts.
Import GoString Strconv Http Handler Wire.
Import StringFacts HexFacts CodecFacts RefFacts LoopFacts.

Lemma emitPkt_flush (rw : ResponseWriter) (d : string) (f : list string) :
  emitPkt "" (mkEnv rw d f) = Returns () (mkEnv (rw_Write "0000" rw) d f).
Proof. done. Qed.

Lemma emitPkt_line (m : string) (rw : ResponseWriter) (d : string)
    (f : list string) :
  m ≠ "" →
  emitPkt m (mkEnv rw d f) = Returns () (mkEnv (rw_Write (pktline m) rw) d f).
Proof.
  intros Hm. unfold emitPkt.
  rewrite bool_decide_eq_false_2; [done|]. by rewrite len_zero.
Qed.

Lemma rw_Write_started (b : string) (st : Z)
    (hd : gmap string (list string)) (bd : string) :
  rw_Write b (mkResponseWriter (Some st) hd bd)
  = mkResponseWriter (Some st) hd (bd +:+ b).
Proof. done. Qed.

Lemma rw_Write_fresh (b : string) (hd : gmap string (list string))
    (bd : string) :
  rw_Write b (mkResponseWriter None hd bd)
  = mkResponseWriter (Some 200) hd (bd +:+ b).
Proof. done. Qed.

Lemma ref_line_nonempty (r : string * string) : ref_line r ≠ "".
Proof. unfold ref_line. by destruct r.1. Qed.

Lemma emitOthers_present (others : gmap string string) (order : list string)
    (st : Z) (hd : gmap string (list string)) (b d : string)
    (f : list string) :
  (∀ n, n ∈ order → is_Some (others !! n)) →
  emitOthers others order (mkEnv (mkResponseWriter (Some st) hd b) d f)
  = Returns ()
      (mkEnv (mkResponseWriter (Some st) hd
                (b +:+ ref_lines (entries_of others order))) d f).
Proof.
  revert b. induction order as [|n order IH]; intros b Hin.
  - cbn. by rewrite app_nil_r.
  - destruct (Hin n) as [h Hh]; [by left|].
    cbn [emitOthers]. rewrite Hh. unfold bind.
    rewrite (emitPkt_line (h +:+ " " +:+ n))
      by apply (ref_line_nonempty (h, n)).
    rewrite rw_Write_started.
    rewrite IH by (intros; apply Hin; by right).
    cbn [entries_of fmap list_fmap ref_lines].
    rewrite (lookup_total_correct _ _ _ Hh). by rewrite app_assoc.
Qed.

(** The loop panics at the first name that is not in the map, after the
    records of the names before it. *)
Lemma emitOthers_missing (others : gmap string string)
    (before after : list string) (n : string)
    (st : Z) (hd : gmap string (list string)) (b d : string)
    (f : list string) :
  (∀ k, k ∈ before → is_Some (others !! k)) → others !! n = None →
  emitOthers others (before ++ n :: after)
    (mkEnv (mkResponseWriter (Some st) hd b) d f)
  = Panics ("invalid other reference: " +:+ n)
      (mkEnv (mkResponseWriter (Some st) hd
                (b +:+ ref_lines (entries_of others before))) d f).
Proof.
  revert b. induction before as [|k before IH]; intros b Hin Hn.
  - cbn. rewrite Hn. by rewrite app_nil_r.
  - destruct (Hin k) as [h Hh]; [by left|].
    cbn [emitOthers app]. rewrite Hh. unfold bind.
    rewrite (emitPkt_line (h +:+ " " +:+ k))
      by apply (ref_line_nonempty (h, k)).
    rewrite rw_Write_started.
    rewrite IH by (done || intros; apply Hin; by right).
    cbn [entries_of fmap list_fmap ref_lines].
    rewrite (lookup_total_correct _ _ _ Hh). by rewrite app_assoc.
Qed.

Lemma first_line_emitted (headHash first : string) (options : list string) :
  headHash +:+ " " +:+ first +:+ String NUL "" +:+ Join options " "
  = first_line (mkAdvert 1 headHash first (Some (Join options " ")) []).
Proof.
  unfold first_line, ref_line. cbn [head_hash head_name caps fst snd].
  by rewrite !app_assoc.
Qed.

Lemma first_line_refs (b : nat) (h n : string) (c : option string)
    (l : list (string * string)) :
  first_line (mkAdvert b h n c l) = first_line (mkAdvert b h n c []).
Proof. done. Qed.

(** With every name of [order] in the map, the response is a complete
    advertisement: one empty record after the header, the new first line
    and the lines of [order]. *)
Lemma emitAdvertisement_present (headHash first : string)
    (options : list string) (others : gmap string string)
    (order : list string) (d : string) (f : list string) :
  (∀ n, n ∈ order → is_Some (others !! n)) →
  emitAdvertisement headHash first options others order
    (mkEnv newResponseWriter d f)
  = Returns ()
      (mkEnv (mkResponseWriter (Some 200) advertisementHeader
                (wire (mkAdvert 1 headHash first (Some (Join options " "))
                         (entries_of others order)))) d f).
Proof.
  intros Hin. unfold emitAdvertisement.
  rewrite first_line_emitted.
  unfold bind, Header_Set, on_w. cbn [w data fetched].
  rewrite emitPkt_line by done. rewrite emitPkt_flush.
  rewrite emitPkt_line.
  2:{ unfold first_line. pose proof (ref_line_nonempty (headHash, first)).
      cbn [head_hash head_name caps]. by destruct (ref_line _). }
  unfold rw_Header_Set, newResponseWriter. cbn [status header body].
  rewrite rw_Write_fresh, !rw_Write_started.
  rewrite emitOthers_present by done. rewrite emitPkt_flush.
  rewrite rw_Write_started.
  unfold wire. cbn [blanks refs flushes].
  rewrite (first_line_refs _ _ _ _ (entries_of others order)).
  by rewrite !app_assoc, !app_nil_l.
Qed.

End EmitFacts.

(** ** The handler *)

Module HandlerFacts.
Import GoString Strconv Http Handler Wire.
Import StringFacts HexFacts CodecFacts RefFacts LoopFacts EmitFacts.

(** The test of main.go 263 lets exactly one query through. *)
Lemma badQuery_false (q : gmap string (list string)) :
  badQuery q = false ↔ q = {[ "service" := ["git-upload-pack"] ]}.
Proof.
  unfold badQuery. split.
  - destruct (q !! "service") as [vs|] eqn:Hq; [|done].
    intros [[Hsz Hlen]%orb_false_elim Hv]%orb_false_elim.
    apply bool_decide_eq_false in Hsz, Hlen, Hv.
    assert (vs = ["git-upload-pack"]) as ->.
    { destruct vs as [|v [|??]]; simpl in *.
      - by destruct Hlen.
      - f_equal. by destruct (decide (v = "git-upload-pack")).
      - by destruct Hlen. }
    rewrite <- (insert_delete_id q _ _ Hq).
    assert (delete "service" q = ∅) as ->; [|done].
    apply map_size_empty_inv.
    pose proof (map_size_delete_Some "service" q (mk_is_Some _ _ Hq)).
    lia.
  - intros ->. rewrite lookup_singleton_eq, map_size_singleton. done.
Qed.

Lemma serve_forbidden (r : Request) (up : Upstream) :
  badQuery (URL_Query r) = true →
  serve r up
  = Returns ()
      (mkEnv (mkResponseWriter (Some 403) ∅
                ("invalid query: " +:+ fmt_Values (URL_Query r))) "" []).
Proof. intros Hq. unfold serve, infoRefs. by rewrite Hq. Qed.

Lemma serve_200 (r : Request) (content : string) :
  badQuery (URL_Query r) = false →
  serve r (Replies 200 content)
  = rewriteRefs (mkEnv newResponseWriter content [upstreamInfoRefs]).
Proof. intros Hq. unfold serve, infoRefs. by rewrite Hq. Qed.

Lemma foldl_insert_present (l : list (string * string))
    (m : gmap string string) (n : string) :
  is_Some (m !! n) ∨ n ∈ l.*2 →
  is_Some (foldl (λ m r, <[r.2 := r.1]> m) m l !! n).
Proof.
  revert m. induction l as [|[h k] l IH]; intros m; simpl.
  - intros [?|?%elem_of_nil]; done.
  - intros H. apply IH. destruct (decide (k = n)) as [->|Hne].
    + left. by rewrite lookup_insert_eq.
    + rewrite lookup_insert_ne by done.
      destruct H as [?|[?|?]%elem_of_cons]; [by left|done|by right].
Qed.

Lemma foldl_insert_absent (l : list (string * string))
    (m : gmap string string) (n : string) :
  n ∉ l.*2 → foldl (λ m r, <[r.2 := r.1]> m) m l !! n = m !! n.
Proof.
  revert m. induction l as [|[h k] l IH]; intros m; simpl; [done|].
  intros [Hne Hn]%not_elem_of_cons.
  rewrite IH by done. by rewrite lookup_insert_ne.
Qed.

Lemma foldl_insert_NoDup (l : list (string * string))
    (m : gmap string string) (h n : string) :
  NoDup l.*2 → (h, n) ∈ l →
  foldl (λ m r, <[r.2 := r.1]> m) m l !! n = Some h.
Proof.
  revert m. induction l as [|[h' k] l IH]; intros m; simpl.
  - by intros _ ?%elem_of_nil.
  - intros [Hk Hnd]%NoDup_cons [Heq|Hin]%elem_of_cons.
    + simplify_eq. rewrite foldl_insert_absent by done.
      by rewrite lookup_insert_eq.
    + by apply IH.
Qed.

(** Every name the loop of main.go 400-410 put in [order] is in [others]. *)
Lemma others_of_present (l : list (string * string)) (n : string) :
  n ∈ l.*2 → is_Some (others_of l !! n).
Proof. intros. apply foldl_insert_present. by right. Qed.

Lemma others_of_absent (l : list (string * string)) (n : string) :
  n ∉ l.*2 → others_of l !! n = None.
Proof. intros. unfold others_of. by rewrite foldl_insert_absent. Qed.

(** When no name is listed twice, the map gives every name its hash. *)
Lemma entries_of_NoDup (l : list (string * string)) :
  NoDup l.*2 → entries_of (others_of l) l.*2 = l.
Proof.
  intros Hnd. unfold entries_of. rewrite <- list_fmap_compose.
  rewrite <- (list_fmap_id l) at 2. apply list_fmap_ext.
  intros i [h n] Hi. simpl.
  apply list_elem_of_lookup_2 in Hi.
  rewrite (lookup_total_correct (others_of l) n h); [done|].
  by apply foldl_insert_NoDup.
Qed.

Lemma len_serviceLine : len serviceLine ≤ 65530.
Proof. by vm_compute. Qed.

(** What the handler does with a well-formed advertisement, up to the
    choice between the HEAD case and the other. *)
Lemma rewriteRefs_wire (a : Advert) (rw : ResponseWriter) (f : list string) :
  wf a = true →
  rewriteRefs (mkEnv rw (wire a) f)
  = match others_of (refs a) !! target with
    | None =>
        (WriteHeader StatusInternalServerError >>
         Fprintf ("invalid target reference: " +:+ target)) (mkEnv rw "" f)
    | Some targetHash =>
        let '(headHash, first, others, order) :=
          promote (head_name a) targetHash (others_of (refs a)) (refs a).*2 in
        emitAdvertisement headHash first (rewriteOptions (options_of a))
          others order (mkEnv rw "" f)
    end.
Proof.
  intros Hwf. unfold rewriteRefs, wire.
  unfold bind at 1. rewrite readPkt_pktline by apply len_serviceLine.
  cbn [negb orb].
  rewrite bool_decide_eq_false_2 by (intros H; by apply H).
  unfold bind at 1. rewrite readFirst_wire by done. cbn [negb].
  unfold bind at 1. rewrite readAllOthers_wire by by apply wf_refs.
  destruct (others_of (refs a) !! target); [|done].
  by destruct (promote _ _ _ _) as [[[??]?]?].
Qed.

End HandlerFacts.

(** ** Termination: the fuel of the loops is never used up *)

Module Totality.
Import GoString Strconv Http Handler Wire.
Import StringFacts HexFacts CodecFacts RefFacts LoopFacts EmitFacts.
Import HandlerFacts.

Lemma steady_bind {A B} (m : M A) (k : A → M B) (e : Env) :
  steady e (m e) →
  (∀ a e', m e = Returns a e' → steady e' (k a e')) →
  steady e (bind m k e).
Proof.
  unfold bind. destruct (m e) as [a e'| |]; [|done..].
  intros [Hf Hd] Hk. specialize (Hk a e' eq_refl).
  destruct (k a e') as [b e''|msg e''|]; simpl in *; [| |done];
    destruct Hk; split; (congruence || lia).
Qed.

Lemma readPkt_steady (e : Env) : steady e (readPkt e).
Proof.
  destruct (readPkt e) as [[m ok] e'|msg e'|] eqn:Hr.
  - apply readPkt_progress in Hr as (_ & ? & Hd). split; [done|].
    destruct ok; [lia | by subst].
  - destruct (readPkt_cases e)
      as [[H _]|[[H _]|[(n & H & _)|(n & H & _)]]];
      rewrite H in Hr; by simplify_eq.
  - destruct (readPkt_cases e)
      as [[H _]|[[H _]|[(n & H & _)|(n & H & _)]]];
      by rewrite H in Hr.
Qed.

Lemma invalid_reference_steady (line : string) (e : Env) :
  steady e (invalid_reference line e).
Proof. done. Qed.

(** [readRef] either hands on what [readPkt] read, with ok, or reports an
    invalid reference, or panics as [readPkt] did. *)
Lemma readRef_after (e : Env) :
  match readPkt e with
  | Returns (line, ok) e1 =>
      (ok = true ∧ ∃ h n o, readRef e = Returns (h, n, o, true) e1)
      ∨ readRef e = invalid_reference line e1
  | Panics msg e1 => readRef e = Panics msg e1
  | OutOfFuel => False
  end.
Proof.
  pose proof (readPkt_steady e) as Hs. unfold readRef, bind.
  destruct (readPkt e) as [[line ok] e1|msg e1|]; [|done..].
  destruct ok; cbn [negb andb orb].
  - case_bool_decide; [left; split; [done | by eauto]|].
    repeat case_bool_decide; (by right) || (left; split; [done | by eauto]).
  - rewrite andb_false_r. by right.
Qed.

Lemma readRef_steady (e : Env) : steady e (readRef e).
Proof.
  pose proof (readPkt_steady e) as Hs. pose proof (readRef_after e) as Hr.
  destruct (readPkt e) as [[line ok] e1|msg e1|]; [| |done].
  - destruct Hr as [[_ (h & n & o & ->)]| ->]; [done|].
    destruct e1. apply Hs.
  - by rewrite Hr.
Qed.

(** A reference read with ok took at least four bytes from the buffer. *)
Lemma readRef_progress (e e' : Env) (h n : string) (o : list string) :
  readRef e = Returns (h, n, o, true) e' →
  (4 + String.length (data e') ≤ String.length (data e))%nat.
Proof.
  intros Hr. pose proof (readRef_after e) as Ha.
  destruct (readPkt e) as [[line ok] e1|msg e1|] eqn:Hp; [| |done].
  - destruct Ha as [[-> (h' & n' & o' & Ha)]|Ha]; rewrite Ha in Hr.
    + simplify_eq. by apply readPkt_progress in Hp as (_ & _ & ?).
    + destruct e1. by rewrite invalid_reference_eq in Hr.
  - by rewrite Ha in Hr.
Qed.

Lemma skipEmpty_steady (fuel : nat) (r : Ref) (e : Env) :
  (String.length (data e) + 1 < fuel)%nat → steady e (skipEmpty fuel r e).
Proof.
  revert r e. induction fuel as [|fuel IH]; intros r e Hfuel; [lia|].
  destruct r as [[[h first] o] ok]. cbn [skipEmpty].
  destruct (bool_decide (first = "") && ok); [|done].
  apply steady_bind; [apply readRef_steady|].
  intros [[[h' first'] o'] ok'] e' Hr. destruct ok'.
  - apply IH. apply readRef_progress in Hr. lia.
  - destruct fuel as [|fuel]; [lia|]. cbn [skipEmpty].
    by rewrite andb_false_r.
Qed.

Lemma readFirst_steady (e : Env) : steady e (readFirst e).
Proof.
  unfold readFirst. apply steady_bind; [apply readRef_steady|].
  intros r e' _. apply steady_bind; [done|].
  intros d e'' [= <- <-]. apply skipEmpty_steady. lia.
Qed.

Lemma readOthers_steady (fuel : nat) (others : gmap string string)
    (order : list string) (e : Env) :
  (String.length (data e) < fuel)%nat →
  steady e (readOthers fuel others order e).
Proof.
  revert others order e.
  induction fuel as [|fuel IH]; intros others order e Hfuel; [lia|].
  cbn [readOthers]. apply steady_bind; [apply readRef_steady|].
  intros [[[h n] o] ok] e' Hr. destruct ok; cbn [negb]; [|done].
  case_bool_decide; [done|].
  apply IH. apply readRef_progress in Hr. lia.
Qed.

Lemma readAllOthers_steady (e : Env) : steady e (readAllOthers e).
Proof.
  unfold readAllOthers. apply steady_bind; [done|].
  intros d e' [= <- <-]. apply readOthers_steady. lia.
Qed.

Lemma emitPkt_steady (m : string) (e : Env) : steady e (emitPkt m e).
Proof. unfold emitPkt. by case_bool_decide. Qed.

Lemma emitOthers_steady (others : gmap string string) (order : list string)
    (e : Env) :
  steady e (emitOthers others order e).
Proof.
  revert e. induction order as [|n order IH]; intros e; [done|].
  cbn [emitOthers]. destruct (others !! n); [|done].
  apply steady_bind; [apply emitPkt_steady | auto].
Qed.

Lemma emitAdvertisement_steady (headHash first : string)
    (options : list string) (others : gmap string string)
    (order : list string) (e : Env) :
  steady e (emitAdvertisement headHash first options others order e).
Proof.
  unfold emitAdvertisement.
  repeat (apply steady_bind;
    [first [apply emitPkt_steady | apply emitOthers_steady | done]
    |intros ???]).
  apply emitPkt_steady.
Qed.

Lemma rewriteRefs_steady (e : Env) : steady e (rewriteRefs e).
Proof.
  unfold rewriteRefs. apply steady_bind; [apply readPkt_steady|].
  intros [header ok] e1 _.
  destruct (negb ok || bool_decide (header ≠ serviceLine)); [done|].
  apply steady_bind; [apply readFirst_steady|].
  intros [[[headHash first] options] ok'] e2 _.
  destruct ok'; cbn [negb]; [|done].
  apply steady_bind; [apply readAllOthers_steady|].
  intros [[others order]|] e3 _; [|done].
  destruct (others !! target) as [targetHash|]; [|done].
  destruct (promote _ _ _ _) as [[[??]?]?].
  apply emitAdvertisement_steady.
Qed.

Lemma serve_fetch (r : Request) (up : Upstream) :
  badQuery (URL_Query r) = false →
  serve r up = forward up (mkEnv newResponseWriter "" [upstreamInfoRefs]).
Proof. intros Hq. unfold serve, infoRefs. by rewrite Hq. Qed.

(** The handler always ends, and it has fetched from the upstream exactly
    when the query passed the test. *)
Lemma serve_ends (r : Request) (up : Upstream) :
  serve r up ≠ OutOfFuel
  ∧ upstream_calls (serve r up)
    = if badQuery (URL_Query r) then [] else [upstreamInfoRefs].
Proof.
  destruct (badQuery (URL_Query r)) eqn:Hq.
  { by rewrite serve_forbidden. }
  rewrite serve_fetch by done.
  destruct up as [err|code err|code content]; [done..|].
  unfold forward. case_bool_decide; [done|].
  unfold bind, set_data. cbn [w data fetched].
  pose proof (rewriteRefs_steady
    (mkEnv newResponseWriter content [upstreamInfoRefs])) as Hs.
  destruct (rewriteRefs _) as [? []|? []|]; [| |done];
    cbn [steady fetched] in Hs; destruct Hs as [-> _]; done.
Qed.

End Totality.

(** * The claims *)

Import GoString Strconv Http Handler Wire Samples.
Import StringFacts HexFacts CodecFacts RefFacts LoopFacts EmitFacts.
Import HandlerFacts Totality.

(** ** The options of the first reference *)

Lemma rewriteOptions_upto (options : list string) (k : nat) :
  (k ≤ length options)%nat →
  foldl rewriteOption options (seq 0 k)
  = (rewritten <$> firstn k options) ++ skipn k options.
Proof.
  induction k as [|k IH]; intros Hk; [reflexivity|].
  rewrite seq_S, foldl_app, IH by lia. cbn [foldl Nat.add].
  destruct (lookup_lt_is_Some_2 options k) as [o Ho]; [lia|].
  rewrite (take_S_r _ _ _ Ho), fmap_app, <- (assoc_L (++)).
  rewrite (drop_S _ _ _ Ho). cbn [fmap list_fmap app].
  assert (length (rewritten <$> firstn k options) = k) as Hlen
    by (rewrite length_fmap, length_take; lia).
  unfold rewriteOption.
  rewrite lookup_app_r, Hlen, Nat.sub_diag by lia. cbn [lookup list_lookup].
  assert (rewritten o
          = if HasPrefix o "symref=" then "symref=" +:+ target else o) as ->
    by done.
  destruct (HasPrefix o "symref="); [|done].
  rewrite insert_app_r_alt, Hlen, Nat.sub_diag by lia. done.
Qed.

(** C7. In the capability list of the first reference every capability
    that starts with [symref=] becomes [symref=refs/heads/go], and every
    other capability stays what and where it was: the list keeps its
    length, and position by position it holds the rewritten capability. *)
Theorem rewriteOptions_positions (options : list string) :
  length (rewriteOptions options) = length options
  ∧ ∀ i : nat,
      rewriteOptions options !! i
      = (λ option,
           if HasPrefix option "symref=" then "symref=refs/heads/go"
           else option) <$> options !! i.
Proof.
  unfold rewriteOptions. rewrite rewriteOptions_upto by done.
  rewrite firstn_all, skipn_all, (right_id_L [] (++)).
  split; [by rewrite length_fmap|].
  intros i. by rewrite list_lookup_fmap.
Qed.

(** ** The HEAD case *)

Lemma target_listed (l : list (string * string)) :
  target ∈ l.*2 → others_of l !! target = Some (others_of l !!! target).
Proof.
  intros [h Hh]%others_of_present.
  by rewrite (lookup_total_correct _ _ _ Hh).
Qed.

(** The response to a well-formed advertisement that starts with HEAD and
    lists the target. *)
Lemma serve_HEAD (a : Advert) :
  wf a = true → head_name a = "HEAD" → target ∈ (refs a).*2 →
  serve uploadPackRequest (Replies 200 (wire a))
  = Returns ()
      (mkEnv
         (mkResponseWriter (Some 200) advertisementHeader
            (wire (rewrittenHEAD a)))
         "" [upstreamInfoRefs]).
Proof.
  intros Hwf Hhead Htarget.
  rewrite serve_200 by done. rewrite rewriteRefs_wire by done.
  rewrite (target_listed _ Htarget), Hhead. unfold promote.
  rewrite bool_decide_eq_true_2 by done.
  apply emitAdvertisement_present. apply others_of_present.
Qed.

Lemma entries_of_names (others : gmap string string) (order : list string) :
  (entries_of others order).*2 = order.
Proof.
  unfold entries_of. rewrite <- list_fmap_compose.
  rewrite <- (list_fmap_id order) at 2. by apply list_fmap_ext.
Qed.



(** ** The missing target *)

(** C9. When the other references of the upstream's advertisement do not
    contain the target, the handler answers 500 with a text that names
    the target, and that text is all it has written: no header of the
    advertisement is set and no byte of a rewritten body precedes it. *)
Theorem infoRefs_missing_target (a : Advert) :
  wf a = true → target ∉ (refs a).*2 →
  serve uploadPackRequest (Replies 200 (wire a))
  = Returns ()
      (mkEnv
         (mkResponseWriter (Some 500) ∅
            "invalid target reference: refs/heads/go")
         "" [upstreamInfoRefs]).
Proof.
  intros Hwf Htarget.
  rewrite serve_200 by done. rewrite rewriteRefs_wire by done.
  by rewrite others_of_absent.
Qed.

Lemma infoRefs_missing_target_witness :
  response (serve uploadPackRequest (Replies 200 (wire noTarget)))
  = Some (mkResponseWriter (Some 500) ∅
            "invalid target reference: refs/heads/go").
Proof.
  rewrite (infoRefs_missing_target noTarget).
  - reflexivity.
  - reflexivity.
  - apply (bool_decide_unpack _). vm_compute. exact I.
Defined.

(** ** An advertisement without references *)

Lemma skipEmpty_flushes (k fuel : nat) (rw : ResponseWriter)
    (f : list string) :
  (k + 1 < fuel)%nat →
  skipEmpty fuel ("", "", [], true) (mkEnv rw (flushes k) f)
  = Returns ("", "", [], false)
      (mkEnv (rw_Write "invalid reference: "
                (rw_WriteHeader StatusInternalServerError rw)) "" f).
Proof.
  revert fuel. induction k as [|k IH]; intros fuel Hfuel.
  - destruct fuel as [|[|fuel]]; [lia..|]. done.
  - destruct fuel as [|fuel]; [lia|].
    cbn [skipEmpty flushes].
    rewrite bool_decide_eq_true_2 by done. cbn [andb].
    unfold bind. rewrite readRef_flush. apply IH. lia.
Qed.

(** A record of length four has no payload either. *)
Lemma readPkt_four (rw : ResponseWriter) (rest : string) (f : list string) :
  readPkt (mkEnv rw ("0004" +:+ rest) f)
  = Returns ("", true) (mkEnv rw rest f).
Proof.
  unfold readPkt, bind, get_data, set_data, ret. cbn [data w fetched].
  pose proof (len_nonneg rest).
  assert (len ("0004" +:+ rest) = 4 + len rest) as Hlen
    by (rewrite len_app; by unfold len at 1).
  rewrite Hlen, bool_decide_eq_false_2 by lia.
  change (ParseInt (slice ("0004" +:+ rest) 0 4) 16 32) with (Some 4).
  cbv iota beta.
  rewrite (bool_decide_eq_false_2 (4 = 0)) by done.
  rewrite bool_decide_eq_true_2 by lia.
  rewrite (bool_decide_eq_false_2 (4 < 4)) by done. done.
Qed.

(** C10. When the upstream's advertisement is the service header followed
    by flush records only, the handler answers 500, "invalid reference":
    [readRef] returns ok with an empty name for a flush record as it does
    for an empty record, the loop after the header reads on, and the
    response is the one to a body that stops after the header. *)
Theorem infoRefs_no_references (k : nat) :
  (∀ rw rest f,
     readRef (mkEnv rw ("0000" +:+ rest) f)
     = Returns ("", "", [], true) (mkEnv rw rest f)
     ∧ readRef (mkEnv rw ("0004" +:+ rest) f)
       = Returns ("", "", [], true) (mkEnv rw rest f))
  ∧ serve uploadPackRequest
      (Replies 200 (pktline serviceLine +:+ flushes (S k)))
    = Returns ()
        (mkEnv (mkResponseWriter (Some 500) ∅ "invalid reference: ")
           "" [upstreamInfoRefs])
  ∧ serve uploadPackRequest
      (Replies 200 (pktline serviceLine +:+ flushes (S k)))
    = serve uploadPackRequest (Replies 200 (pktline serviceLine)).
Proof.
  assert (serve uploadPackRequest
            (Replies 200 (pktline serviceLine +:+ flushes (S k)))
          = Returns ()
              (mkEnv (mkResponseWriter (Some 500) ∅ "invalid reference: ")
                 "" [upstreamInfoRefs])) as Hflush.
  { rewrite serve_200 by done. unfold rewriteRefs.
    unfold bind at 1. rewrite readPkt_pktline by apply len_serviceLine.
    cbn [negb orb].
    rewrite bool_decide_eq_false_2 by (intros H; by apply H).
    unfold bind at 1. unfold readFirst. cbn [flushes].
    unfold bind at 1. rewrite readRef_flush.
    unfold bind at 1. unfold get_data. cbn [data].
    rewrite skipEmpty_flushes; [done|].
    pose proof (length_flushes k). lia. }
  split_and!; [|done|by rewrite Hflush].
  intros rw rest f. split; [apply readRef_flush|].
  unfold readRef. unfold bind at 1. by rewrite readPkt_four.
Qed.

(** ** The query test *)

(** C8. A request whose query parameters are anything but the single
    [service=git-upload-pack] is answered 403 with a text that shows the
    query, and nothing was fetched from the upstream; with exactly that
    query the handler fetches the upstream's advertisement, once. *)
Theorem infoRefs_query_gate (r : Request) (up : Upstream) :
  (URL_Query r ≠ {[ "service" := ["git-upload-pack"] ]} →
   serve r up
   = Returns ()
       (mkEnv
          (mkResponseWriter (Some 403) ∅
             ("invalid query: " +:+ fmt_Values (URL_Query r)))
          "" []))
  ∧ (URL_Query r = {[ "service" := ["git-upload-pack"] ]} →
     upstream_calls (serve r up) = [upstreamInfoRefs]).
Proof.
  split; intros Hq.
  - apply serve_forbidden. rewrite <- not_false_iff_true.
    by rewrite badQuery_false.
  - apply badQuery_false in Hq.
    destruct (serve_ends r up) as [_ ->]. by rewrite Hq.
Qed.

Lemma infoRefs_query_gate_witness :
  serve (mkRequest {[ "service" := ["git-upload-pack"]; "extra" := ["1"] ]})
    (Replies 200 (wire (headFirst 2)))
  = Returns ()
      (mkEnv
         (mkResponseWriter (Some 403) ∅
            "invalid query: map[extra:[1] service:[git-upload-pack]]")
         "" []).
Proof.
  destruct (infoRefs_query_gate
    (mkRequest {[ "service" := ["git-upload-pack"]; "extra" := ["1"] ]})
    (Replies 200 (wire (headFirst 2)))) as [H _].
  rewrite H.
  - vm_compute. reflexivity.
  - cbn [URL_Query]. intros E.
    apply (f_equal (λ m : gmap string (list string), m !! "extra")) in E.
    vm_compute in E. discriminate E.
Defined.

(** The other rejections the claim lists: no parameter at all, the service
    given twice, another service. *)
Example infoRefs_rejections (up : Upstream) :
  Forall (λ q, response (serve (mkRequest q) up)
               = Some (mkResponseWriter (Some 403) ∅
                         ("invalid query: " +:+ fmt_Values q))
               ∧ upstream_calls (serve (mkRequest q) up) = [])
    [ ∅;
      {[ "service" := ["git-upload-pack"; "git-upload-pack"] ]};
      {[ "service" := ["git-receive-pack"] ]};
      {[ "extra" := ["1"] ]} ].
Proof.
  repeat constructor; by rewrite serve_forbidden by by vm_compute.
Qed.

(** ** The record reader on a length below four *)

(** C2 (the code departs from it). A length field of 1, 2 or 3, or a
    negative one, which [strconv.ParseInt] accepts, passes the tests of
    [readPkt] and reaches [data[4:size]], where the handler panics: an
    outcome that is neither "not ok" nor a payload.  So does the handler
    on an upstream body that starts with such a field. *)
Theorem readPkt_short_length_panics :
  Forall (λ d, readPkt (mkEnv newResponseWriter d [])
               = Panics "runtime error: slice bounds out of range"
                   (mkEnv newResponseWriter d []))
    ["0001"; "0002"; "0003"; "-001"; "0003abc"]
  ∧ serve uploadPackRequest (Replies 200 "0001")
    = Panics "runtime error: slice bounds out of range"
        (mkEnv newResponseWriter "0001" [upstreamInfoRefs]).
Proof. split; [repeat constructor|]; by vm_compute. Qed.

(** ** The round trip of the record codec *)

Lemma emitted_emitPkt (m : string) :
  emitted (emitPkt m) = if bool_decide (m = "") then "0000" else pktline m.
Proof.
  unfold emitted. case_bool_decide as Hm.
  - subst m. by rewrite emitPkt_flush.
  - by rewrite emitPkt_line.
Qed.

Lemma readPkt_emitted (m rest : string) :
  len m ≤ 65530 →
  readPkt (mkEnv newResponseWriter (emitted (emitPkt m) +:+ rest) [])
  = Returns (m, true) (mkEnv newResponseWriter rest []).
Proof.
  intros Hm. rewrite emitted_emitPkt. case_bool_decide as H0.
  - subst m. apply readPkt_flush.
  - by apply readPkt_pktline.
Qed.

(** C3, amended. For payloads of at most 65530 bytes, reading back what
    [emitPkt] wrote returns the payloads, one by one, and leaves what
    followed them in the buffer; the bytes written for a payload are the
    four lower-case digits of 4 + len + 1, the payload and a newline, and
    [0000] for the empty payload. *)
Theorem pkts_round_trip (ms : list string) (rest : string) :
  Forall (λ m, len m ≤ 65530) ms →
  readPkts (length ms) (pkts ms +:+ rest) = Some (ms, rest)
  ∧ Forall (λ m,
      emitted (emitPkt m)
      = if bool_decide (m = "") then "0000"
        else hex4 (4 + len m + 1) +:+ m +:+ String LF "") ms.
Proof.
  intros Hms. split.
  - induction Hms as [|m ms Hm _ IH]; [done|].
    cbn [pkts foldr length readPkts]. rewrite app_assoc.
    rewrite readPkt_emitted by done. cbn [data].
    fold (pkts ms). by rewrite IH.
  - eapply Forall_impl; [exact Hms|]. intros m Hm. cbv beta in Hm.
    rewrite emitted_emitPkt. case_bool_decide; [done|].
    rewrite pktline_hex4 by done.
    by replace (4 + len m + 1) with (len m + 5) by lia.
Qed.

Lemma pkts_round_trip_witness :
  readPkts 3 (pkts ["# service=git-upload-pack"; ""; "abc"])
  = Some (["# service=git-upload-pack"; ""; "abc"], "").
Proof.
  destruct (pkts_round_trip ["# service=git-upload-pack"; ""; "abc"] "")
    as [H _].
  - repeat (constructor; [by apply Z.leb_le|]). constructor.
  - rewrite app_nil_r in H. exact H.
Defined.

(** C3 as stated fails: the record of a payload of 65531 bytes has 65536
    bytes, [%04x] writes five digits for that, and [readPkt] takes the
    first four of them for the length. *)
Lemma pkts_long_payload_garbled :
  len longPayload = 65531
  ∧ bytes_to 5 (emitted (emitPkt longPayload)) = "10000"
  ∧ readPkts 1 (pkts [longPayload]) ≠ Some ([longPayload], "").
Proof.
  split_and!; [by vm_compute..|].
  intros H.
  apply (f_equal (λ r : option (list string * string),
    match r with Some (m :: _, _) => len m | _ => 0 end)) in H.
  vm_compute in H. discriminate H.
Qed.

(** ** The case of a first reference other than HEAD *)

Lemma emitAdvertisement_missing (headHash first : string)
    (options : list string) (others : gmap string string)
    (before after : list string) (n d : string) (f : list string) :
  (∀ k, k ∈ before → is_Some (others !! k)) → others !! n = None →
  emitAdvertisement headHash first options others (before ++ n :: after)
    (mkEnv newResponseWriter d f)
  = Panics ("invalid other reference: " +:+ n)
      (mkEnv
         (mkResponseWriter (Some 200) advertisementHeader
            (pktline serviceLine +:+ "0000"
             +:+ pktline (headHash +:+ " " +:+ first +:+ String NUL ""
                          +:+ Join options " ")
             +:+ ref_lines (entries_of others before)))
         d f).
Proof.
  intros Hin Hn. unfold emitAdvertisement.
  unfold bind, Header_Set, on_w. cbn [w data fetched].
  rewrite emitPkt_line by done. rewrite emitPkt_flush.
  rewrite emitPkt_line.
  2:{ rewrite first_line_emitted. unfold first_line.
      pose proof (ref_line_nonempty (headHash, first)).
      cbn [head_hash head_name caps]. by destruct (ref_line _). }
  unfold rw_Header_Set, newResponseWriter. cbn [status header body].
  rewrite rw_Write_fresh, !rw_Write_started.
  rewrite emitOthers_missing by done.
  by rewrite !app_assoc, !app_nil_l.
Qed.

(** Whenever the first reference is not HEAD and the target is listed, the
    handler panics in the loop of main.go 439-446, at the target's name:
    main.go 426 has overwritten [first] with the target before main.go
    427-428 put [first] back among the others, so the target ends up in
    [order] once more and, after main.go 430, not in [others]. *)
Lemma serve_branch_first_panics (a : Advert) :
  wf a = true → head_name a ≠ "HEAD" → target ∈ (refs a).*2 →
  ∃ e, serve uploadPackRequest (Replies 200 (wire a))
       = Panics "invalid other reference: refs/heads/go" e.
Proof.
  intros Hwf Hhead Htarget.
  rewrite serve_200 by done. rewrite rewriteRefs_wire by done.
  rewrite (target_listed _ Htarget). unfold promote.
  rewrite bool_decide_eq_false_2 by done.
  assert (target ∈ sort_Strings ((refs a).*2 ++ [target])) as Hin.
  { unfold sort_Strings. rewrite merge_sort_Permutation.
    apply elem_of_app. right. by left. }
  apply list_elem_of_split_l in Hin as (before & after & Hsplit & Hfirst).
  rewrite Hsplit. eexists. apply emitAdvertisement_missing.
  - intros k Hk.
    assert (k ≠ target) as Hne by (intros ->; done).
    rewrite lookup_delete_ne, lookup_insert_ne by done.
    apply others_of_present.
    assert (k ∈ sort_Strings ((refs a).*2 ++ [target])) as Hk'
      by (rewrite Hsplit; apply elem_of_app; by left).
    unfold sort_Strings in Hk'. rewrite merge_sort_Permutation in Hk'.
    apply elem_of_app in Hk' as [?|Hk']; [done|].
    by apply list_elem_of_singleton in Hk'.
  - apply lookup_delete_eq.
Qed.

(** C1 (the code departs from it). For an advertisement that starts with
    a branch and lists the target, the handler writes the header, the empty
    record, the target as first entry and the entries that sort before the
    target, and then panics: no record for the target, for the names after
    it or for the old first reference, and no flush record. *)
Theorem infoRefs_branch_first_panics :
  serve uploadPackRequest (Replies 200 (wire branchFirst))
  = Panics "invalid other reference: refs/heads/go"
      (mkEnv
         (mkResponseWriter (Some 200) advertisementHeader
            (pktline serviceLine +:+ "0000"
             +:+ pktline (hashC +:+ " refs/heads/go"
                          +:+ String NUL "symref=refs/heads/go capA")
             +:+ pktline (hashB +:+ " refs/heads/dev")))
         "" [upstreamInfoRefs]).
Proof. by vm_compute. Qed.

(** ** Conservation of the references *)

(** The references of a well-formed advertisement, read back. *)
Lemma refs_of_wire (a : Advert) :
  wf a = true →
  refs_of (wire a) = Some ((head_hash a, head_name a) :: refs a).
Proof.
  intros Hwf. unfold refs_of, readAdvert, wire.
  unfold bind at 1. rewrite readPkt_pktline by apply len_serviceLine.
  cbn [negb orb].
  rewrite bool_decide_eq_false_2 by (intros H; by apply H).
  unfold bind at 1. rewrite readFirst_wire by done. cbn [negb].
  unfold bind, get_data. cbn [data].
  rewrite <- (app_nil_r "0000") at 2.
  rewrite collectRefs_wire; [done|by apply wf_refs|].
  rewrite length_app. pose proof (length_ref_lines (refs a)). lia.
Qed.

Lemma rewriteOptions_fmap (options : list string) :
  rewriteOptions options = rewritten <$> options.
Proof.
  unfold rewriteOptions. rewrite rewriteOptions_upto by done.
  by rewrite firstn_all, skipn_all, (right_id_L [] (++)).
Qed.

Lemma has_byte_Split (c sep : ascii) (s : string) :
  has_byte c s = false → Forall (λ x, has_byte c x = false) (Split s sep).
Proof.
  induction s as [|x s IH]; simpl; [by repeat constructor|].
  intros [Hx Hs]%orb_false_elim. specialize (IH Hs).
  destruct (decide (x = sep)); [by constructor|].
  destruct (Split s sep) as [|y ys];
    [by repeat constructor; simpl; rewrite Hx|].
  apply Forall_cons in IH as [Hy Hys].
  constructor; [|done]. simpl. by rewrite Hx, Hy.
Qed.

Lemma has_byte_Join (c : ascii) (l : list string) :
  c ≠ SP → Forall (λ x, has_byte c x = false) l →
  has_byte c (Join l " ") = false.
Proof.
  intros Hc Hl. unfold Join.
  induction Hl as [|x l Hx Hl IH]; [done|].
  destruct l as [|y l]; [done|].
  change (String.concat " " (x :: y :: l))
    with (x +:+ String SP (String.concat " " (y :: l))).
  rewrite has_byte_app, Hx. cbn [has_byte orb]. rewrite IH.
  rewrite bool_decide_eq_false_2; [done|]. by intros <-.
Qed.

Lemma has_byte_rewritten (o : string) :
  has_byte NUL o = false → has_byte NUL (rewritten o) = false.
Proof. unfold rewritten. by destruct (HasPrefix o "symref="). Qed.

Lemma foldl_insert_lookup (l : list (string * string))
    (m : gmap string string) (n h : string) :
  foldl (λ m r, <[r.2 := r.1]> m) m l !! n = Some h →
  m !! n = Some h ∨ (h, n) ∈ l.
Proof.
  revert m. induction l as [|[h' k] l IH]; intros m; simpl; [by left|].
  intros [Hm|Hl]%IH; [|right; by right].
  destruct (decide (k = n)) as [->|Hne].
  - rewrite lookup_insert_eq in Hm. simplify_eq. right; by left.
  - rewrite lookup_insert_ne in Hm by done. by left.
Qed.

(** The advertisement the handler answers in the HEAD case is well formed
    when its first line still fits a record and no name is listed twice. *)
Lemma wf_rewrittenHEAD (a : Advert) :
  wf a = true → target ∈ (refs a).*2 → NoDup (refs a).*2 →
  fits (first_line (rewrittenHEAD a)) = true → wf (rewrittenHEAD a) = true.
Proof.
  intros Hwf Htarget Hnd Hfits. pose proof Hwf as Hwf'.
  unfold wf in Hwf'.
  apply andb_prop in Hwf' as [[[[_ _]%andb_prop Hc]%andb_prop _]%andb_prop Hl].
  assert (token (others_of (refs a) !!! target) = true) as Htok.
  { apply target_listed in Htarget.
    apply foldl_insert_lookup in Htarget as [?|Hin]; [done|].
    rewrite forallb_forall in Hl. apply list_elem_of_In, Hl in Hin.
    by apply wf_ref_spec in Hin as [? _]. }
  assert (has_byte NUL (Join (rewriteOptions (options_of a)) " ") = false)
    as Hcaps.
  { rewrite rewriteOptions_fmap.
    apply has_byte_Join; [done|]. apply Forall_fmap.
    unfold options_of. destruct (caps a) as [c|]; [|by constructor].
    apply negb_true_iff in Hc.
    eapply Forall_impl; [by apply has_byte_Split|].
    intros o. apply has_byte_rewritten. }
  unfold wf. rewrite Hfits. unfold rewrittenHEAD.
  cbn [head_hash head_name caps refs].
  by rewrite Htok, Hcaps, entries_of_NoDup, Hl.
Qed.

(** C4, amended. For a well-formed advertisement that starts with HEAD,
    lists the target and lists no name twice, the references read from
    the rewritten advertisement are those read from the upstream's, each
    with its hash and in the same order, except for HEAD itself, whose
    hash is replaced by the target's.  (The first line of the answer has
    to fit a record for the answer to be readable at all.) *)
Theorem infoRefs_HEAD_conserves (a : Advert) :
  wf a = true → head_name a = "HEAD" → target ∈ (refs a).*2 →
  NoDup (refs a).*2 → fits (first_line (rewrittenHEAD a)) = true →
  ∃ rw,
    response (serve uploadPackRequest (Replies 200 (wire a))) = Some rw
    ∧ refs_of (wire a) = Some ((head_hash a, "HEAD") :: refs a)
    ∧ refs_of (body rw)
      = Some ((others_of (refs a) !!! target, "HEAD") :: refs a).
Proof.
  intros Hwf Hhead Htarget Hnd Hfits.
  rewrite serve_HEAD by done.
  eexists. split; [done|]. cbn [response body w].
  rewrite <- Hhead at 1. split; [by apply refs_of_wire|].
  rewrite refs_of_wire by by apply wf_rewrittenHEAD.
  unfold rewrittenHEAD. cbn [head_hash head_name refs].
  by rewrite entries_of_NoDup.
Qed.

Lemma infoRefs_HEAD_conserves_witness :
  ∃ rw,
    response (serve uploadPackRequest (Replies 200 (wire (headFirst 2))))
    = Some rw
    ∧ refs_of (wire (headFirst 2))
      = Some ((hashA, "HEAD") :: refs (headFirst 2))
    ∧ refs_of (body rw) = Some ((hashC, "HEAD") :: refs (headFirst 2)).
Proof.
  apply (infoRefs_HEAD_conserves (headFirst 2)).
  - reflexivity.
  - reflexivity.
  - apply (bool_decide_unpack _). vm_compute. exact I.
  - apply (bool_decide_unpack _). vm_compute. exact I.
  - vm_compute. reflexivity.
Defined.

(** C4 as stated fails: in the example advertisement HEAD is at [hashA] and
    the target at [hashC]; the rewritten advertisement lists HEAD at
    [hashC], so the pair of HEAD with [hashA] is gone and a pair of HEAD
    with [hashC] is new. *)
Lemma infoRefs_HEAD_changes_pairs :
  refs_of (wire (headFirst 2)) = Some ((hashA, "HEAD") :: refs (headFirst 2))
  ∧ (λ rw, refs_of (body rw))
      <$> response (serve uploadPackRequest (Replies 200 (wire (headFirst 2))))
    = Some (Some ((hashC, "HEAD") :: refs (headFirst 2)))
  ∧ ¬ ((hashA, "HEAD") :: refs (headFirst 2)
       ≡ₚ (hashC, "HEAD") :: refs (headFirst 2)).
Proof.
  split_and!; [by vm_compute..|].
  intros Hp.
  assert ((hashA, "HEAD") ∉ (hashC, "HEAD") :: refs (headFirst 2)) as Hn
    by (apply (bool_decide_unpack _); vm_compute; exact I).
  apply Hn. rewrite <- Hp. left.
Qed.

(** ** The end-to-end example *)

Lemma headFirst_late (pos : nat) : headFirst (S (S pos)) = headFirst 2.
Proof.
  unfold headFirst, listed. cbn [firstn skipn].
  by rewrite firstn_nil, skipn_nil.
Qed.

(** C5, amended. For the example advertisement (HEAD first with
    [symref=HEAD:refs/heads/main capA capB], then main and dev, and the
    target listed before, between or after them) the rewritten
    advertisement holds the header, an empty record, the first entry
    HEAD at the target's hash with the capabilities
    [symref=refs/heads/go capA capB], the other entries in the upstream's
    order with their hashes, and a flush record. *)
Theorem infoRefs_example (pos : nat) :
  ∃ rw,
    response (serve uploadPackRequest (Replies 200 (wire (headFirst pos))))
    = Some rw
    ∧ status rw = Some 200
    ∧ readPkts 7 (body rw)
      = Some ([serviceLine; "";
               hashC +:+ " HEAD"
               +:+ String NUL "symref=refs/heads/go capA capB"]
              ++ (ref_line <$> refs (headFirst pos)) ++ [""], "").
Proof.
  destruct pos as [|[|pos]]; [| |rewrite headFirst_late].
  all: rewrite serve_HEAD
    by (done || (apply (bool_decide_unpack _); by vm_compute)).
  all: eexists; split; [reflexivity|]; split; [reflexivity|].
  all: by vm_compute.
Qed.

(** C5 as stated fails, wherever the upstream lists the target: the
    symref capability of the first entry is [symref=refs/heads/go], not
    [symref=HEAD:refs/heads/go], and the other entries are not sorted:
    main still comes before dev. *)
Lemma infoRefs_example_not_sorted :
  Forall (λ pos,
    ∃ rw records,
      response (serve uploadPackRequest (Replies 200 (wire (headFirst pos))))
      = Some rw
      ∧ readPkts 7 (body rw) = Some (records, "")
      ∧ records !! 2%nat
        ≠ Some (hashC +:+ " HEAD"
                +:+ String NUL "symref=HEAD:refs/heads/go capA capB")
      ∧ skipn 3 records
        ≠ [hashB +:+ " refs/heads/dev"; hashC +:+ " refs/heads/go";
           hashA +:+ " refs/heads/main"; ""])
    [0; 1; 2]%nat.
Proof.
  repeat apply Forall_cons_2; [..|apply Forall_nil_2].
  all: rewrite serve_HEAD
    by (done || (apply (bool_decide_unpack _); by vm_compute)).
  all: eexists _, _; split; [reflexivity|]; cbn [body].
  all: split; [by vm_compute|]; by split.
Qed.

(** * Further properties *)

(** ** What [readPkt] takes from the buffer *)

Lemma bytes_to_from (n : nat) (s : string) :
  bytes_to n s +:+ bytes_from n s = s.
Proof.
  revert s. induction n as [|n IH]; intros [|c s]; simpl; try done.
  by rewrite app_cons, IH.
Qed.

Lemma length_bytes_to (n : nat) (s : string) :
  String.length (bytes_to n s) = (n `min` String.length s)%nat.
Proof.
  revert s. induction n as [|n IH]; intros [|c s]; simpl; try done.
  by rewrite IH.
Qed.

Lemma bytes_from_add (a b : nat) (s : string) :
  bytes_from (a + b) s = bytes_from b (bytes_from a s).
Proof.
  revert s. induction a as [|a IH]; intros [|c s]; simpl; try done.
  by destruct b.
Qed.

Lemma TrimSuffix_LF (x : string) :
  ∃ nl, (nl = "" ∨ nl = String LF "")
        ∧ x = TrimSuffix x (String LF "") +:+ nl.
Proof.
  unfold TrimSuffix. destruct (HasSuffix x (String LF "")) eqn:Hs.
  - exists (String LF ""). split; [by right|].
    unfold HasSuffix in Hs. apply andb_prop in Hs as [_ Hs].
    apply bool_decide_eq_true in Hs.
    etrans; [symmetry; apply (bytes_to_from
      (Z.to_nat (len x - len (String LF ""))) x)|].
    by rewrite Hs.
  - exists "". split; [by left|]. by rewrite app_nil_r.
Qed.

Lemma digitval_range (c : ascii) (d : Z) : digitval c = Some d → 0 ≤ d.
Proof.
  unfold digitval. repeat case_bool_decide; intros; simplify_eq; lia.
Qed.

(** The digits of a number in base 16 bound it. *)
Lemma parse_digits_bound (s : string) (acc n : Z) :
  parse_digits 16 acc s = Some n → 0 ≤ acc →
  acc * 16 ^ len s ≤ n < (acc + 1) * 16 ^ len s.
Proof.
  revert acc. induction s as [|c s IH]; intros acc; cbn [parse_digits].
  - intros [= ->] _. change (len "") with 0. lia.
  - destruct (digitval c) as [d|] eqn:Hd; [|done].
    case_bool_decide as Hbase; [done|]. intros Hp Hacc.
    apply digitval_range in Hd.
    apply IH in Hp; [|lia]. rewrite len_cons.
    pose proof (len_nonneg s).
    rewrite Z.pow_add_r, Z.pow_1_r by lia.
    assert (0 < 16 ^ len s) by (apply Z.pow_pos_nonneg; lia). nia.
Qed.

(** Four bytes hold a length of at most 65535. *)
Lemma ParseInt_four (s : string) (n : Z) :
  ParseInt s 16 32 = Some n → len s ≤ 4 → n ≤ 65535.
Proof.
  unfold ParseInt. destruct s as [|c s]; [done|].
  rewrite len_cons. pose proof (len_nonneg s).
  set (neg := bool_decide (c = "-"%char)).
  set (digits := if bool_decide (c = "+"%char) || neg then s
                 else String c s).
  intros Hp Hlen.
  assert (len digits ≤ 4) as Hd.
  { unfold digits. destruct (_ || _); [lia|]. rewrite len_cons. lia. }
  destruct (ParseUint digits 16 32) as [un|] eqn:Hun; [|done].
  assert (0 ≤ un < 65536) as Hun4.
  { unfold ParseUint in Hun.
    destruct (bool_decide (digits = "")); [done|].
    destruct (parse_digits 16 0 digits) as [k|] eqn:Hk; [|done].
    destruct (bool_decide (k > 2 ^ 32 - 1)); [done|].
    injection Hun as <-.
    apply parse_digits_bound in Hk; [|done].
    pose proof (len_nonneg digits).
    assert (16 ^ len digits ≤ 16 ^ 4) by (apply Z.pow_le_mono_r; lia).
    change (16 ^ 4) with 65536 in *. lia. }
  destruct (negb neg && _); [done|]. destruct (neg && _); [done|].
  injection Hp as <-. destruct neg; lia.
Qed.

(** X1. Whatever is in the buffer, a read that is ok has taken from its
    front four length bytes, the payload it returns and at most one
    newline, 65535 bytes at most, and the length bytes are 0 (a flush
    record, with no payload) or count exactly what was taken; a read that
    is not ok returns the empty payload and leaves the buffer as it was.
    Neither writes to the response. *)
Theorem readPkt_sound (e e' : Env) (m : string) (ok : bool) :
  readPkt e = Returns (m, ok) e' →
  w e' = w e ∧ fetched e' = fetched e ∧
  if ok then
    ∃ digits nl,
      len digits = 4 ∧ (nl = "" ∨ nl = String LF "")
      ∧ data e = digits +:+ m +:+ nl +:+ data e'
      ∧ 4 + len m + len nl ≤ 65535
      ∧ (ParseInt digits 16 32 = Some 0 ∧ m = "" ∧ nl = ""
         ∨ ParseInt digits 16 32 = Some (4 + len m + len nl))
  else m = "" ∧ e' = e.
Proof.
  intros Hr. destruct e as [rw d f].
  destruct (readPkt_cases (mkEnv rw d f))
    as [[H _]|[[H [Hl Hs]]|[(n & H & Hs & Hn)|(n & H & _)]]];
    rewrite H in Hr; simplify_eq; cbn [w data fetched] in *;
    (split; [done|]); (split; [done|]); [done| |].
  - exists (bytes_to 4 d), "".
    assert (len (bytes_to 4 d) = 4) as Hlen.
    { unfold len in *. rewrite length_bytes_to. lia. }
    split_and!; [done|by left| |done|by left].
    by rewrite app_nil_l, bytes_to_from.
  - set (x := slice d 4 n).
    destruct (TrimSuffix_LF x) as (nl & Hnl & Hx).
    exists (bytes_to 4 d), nl.
    assert (len (bytes_to 4 d) = 4) as Hlen.
    { unfold len in *. rewrite length_bytes_to. lia. }
    assert (len x = n - 4) as Hlx.
    { unfold x, slice, len in *.
      rewrite length_bytes_to, length_bytes_from. lia. }
    assert (len (TrimSuffix x (String LF "")) + len nl = n - 4) as Hsum
      by (rewrite <- len_app, <- Hx; done).
    assert (n ≤ 65535) as Hmax.
    { apply (ParseInt_four _ _ Hs). unfold slice, len.
      rewrite length_bytes_to. lia. }
    split_and!; [done|done| |lia|right].
    + rewrite <- (app_assoc (TrimSuffix x _)), <- Hx. unfold x, slice.
      replace (Z.to_nat n) with (4 + Z.to_nat (n - 4))%nat by lia.
      rewrite bytes_from_add, bytes_to_from. by rewrite bytes_to_from.
    + etrans; [exact Hs|]. f_equal. lia.
Qed.

Lemma readPkt_sound_witness :
  ∃ digits nl,
    len digits = 4 ∧ (nl = "" ∨ nl = String LF "")
    ∧ "0009abcd" +:+ String LF "0000"
      = digits +:+ "abcd" +:+ nl +:+ "0000"
    ∧ 4 + len "abcd" + len nl ≤ 65535
    ∧ (ParseInt digits 16 32 = Some 0 ∧ "abcd" = "" ∧ nl = ""
       ∨ ParseInt digits 16 32 = Some (4 + len "abcd" + len nl)).
Proof.
  apply (readPkt_sound
           (mkEnv newResponseWriter ("0009abcd" +:+ String LF "0000") [])
           (mkEnv newResponseWriter "0000" []) "abcd" true).
  vm_compute. reflexivity.
Defined.

(** ** What [readRef] accepts *)

Import Bytes.

Lemma length_Split (s : string) (c : ascii) :
  length (Split s c) = S (count_byte c s).
Proof.
  induction s as [|x s IH]; [done|]. cbn [Split count_byte].
  destruct (decide (x = c)); cbn [length]; [by rewrite IH|].
  destruct (Split s c); simpl in *; lia.
Qed.

Lemma Split_head (s : string) (c : ascii) :
  ∃ tl, Split s c = before c s :: tl.
Proof.
  induction s as [|x s [tl IH]]; [by eexists|]. cbn [Split before].
  destruct (decide (x = c)); [by eexists|]. rewrite IH. by eexists.
Qed.

(** A string is its first piece, or its first piece, the separator and
    what the other pieces come from; no piece holds the separator. *)
Lemma Split_inv (s : string) (c : ascii) (a : string) (l : list string) :
  Split s c = a :: l →
  has_byte c a = false
  ∧ (l = [] ∧ s = a ∨ ∃ t, s = a +:+ String c t ∧ Split t c = l).
Proof.
  revert a l. induction s as [|x s IH]; intros a l; cbn [Split].
  - intros [= <- <-]. split; [done | by left].
  - destruct (decide (x = c)) as [->|Hx].
    + intros [= <- <-]. split; [done|]. right. by exists s.
    + destruct (Split s c) as [|y ys] eqn:Hs;
        [by apply Split_nonempty in Hs|].
      intros [= <- <-]. destruct (IH y ys eq_refl) as [Hy Hrest].
      split; [simpl; by rewrite Hy, bool_decide_eq_false_2|].
      destruct Hrest as [[-> ->]|(t & -> & Ht)]; [by left|].
      right. exists t. by rewrite app_cons.
Qed.

Lemma Split_pieces (s : string) (c : ascii) :
  Forall (λ x, has_byte c x = false) (Split s c).
Proof.
  remember (Split s c) as l eqn:Hl. revert s Hl.
  induction l as [|a l IH]; intros s Hl; [done|].
  symmetry in Hl. apply Split_inv in Hl as [Ha Hrest].
  constructor; [done|].
  destruct Hrest as [[-> _]|(t & _ & Ht)]; [done|]. by apply (IH t).
Qed.

Lemma Join_Split (s : string) (c : ascii) :
  Join (Split s c) (String c "") = s.
Proof.
  remember (Split s c) as l eqn:Hl. revert s Hl.
  induction l as [|a l IH]; intros s Hl;
    [by symmetry in Hl; apply Split_nonempty in Hl|].
  symmetry in Hl. pose proof Hl as Hinv.
  apply Split_inv in Hinv as [_ [[-> ->]|(t & -> & Ht)]]; [done|].
  destruct l as [|b l]; [by apply Split_nonempty in Ht|].
  unfold Join in *.
  change (String.concat (String c "") (a :: b :: l))
    with (a +:+ String c "" +:+ String.concat (String c "") (b :: l)).
  by rewrite (IH t).
Qed.

(** X2. When [readRef] returns ok, the record it read was empty, and all
    it returns is empty, or the record is the hash, a space and the name
    it returns, followed, when there are options, by a NUL and the options
    joined by spaces; hash and name hold no space and no NUL, and no
    option does. *)
Theorem readRef_sound (e e' : Env) (hash ref : string)
    (options : list string) :
  readRef e = Returns (hash, ref, options, true) e' →
  ∃ line,
    readPkt e = Returns (line, true) e'
    ∧ (line = "" ∧ hash = "" ∧ ref = "" ∧ options = []
       ∨ has_byte SP hash = false ∧ has_byte NUL hash = false
         ∧ has_byte SP ref = false ∧ has_byte NUL ref = false
         ∧ (options = [] ∧ line = hash +:+ " " +:+ ref
            ∨ options ≠ []
              ∧ line = hash +:+ " " +:+ ref +:+ String NUL ""
                       +:+ Join options " "
              ∧ Forall (λ o, has_byte SP o = false
                             ∧ has_byte NUL o = false) options)).
Proof.
  unfold readRef, bind.
  destruct (readPkt e) as [[line ok] e1|msg e1|]; [|done..].
  destruct ok; cbn [negb andb orb].
  2:{ rewrite andb_false_r. destruct e1. by rewrite invalid_reference_eq. }
  case_bool_decide as Hline.
  { intros [= <- <- <- <-]. exists line. split; [done|]. by left. }
  case_bool_decide; [done|].
  assert (∀ p0, has_byte NUL p0 = false →
            Split p0 SP = [hash; ref] →
            p0 = hash +:+ " " +:+ ref
            ∧ has_byte SP hash = false ∧ has_byte NUL hash = false
            ∧ has_byte SP ref = false ∧ has_byte NUL ref = false) as Hparts.
  { intros p0 Hz Hsp.
    apply Split_inv in Hsp as [Hh [[? _]|(t & -> & Ht)]]; [done|].
    apply Split_inv in Ht as [Hr [[_ ->]|(t' & _ & Ht')]];
      [|by apply Split_nonempty in Ht'].
    rewrite has_byte_app in Hz. apply orb_false_elim in Hz as [Hz1 Hz2].
    by simpl in Hz2. }
  destruct (Split line NUL) as [|p0 [|p1 [|p2 ps]]] eqn:Hsplit;
    [by apply Split_nonempty in Hsplit| | |simpl in *; lia].
  - simpl. apply Split_inv in Hsplit as [Hz [[_ ->]|(t & _ & Ht)]];
      [|by apply Split_nonempty in Ht].
    destruct (Split p0 SP) as [|h [|r [|??]]] eqn:Hsp; simpl;
      try (destruct e1; by rewrite invalid_reference_eq).
    intros [= <- <- <- <-].
    destruct (Hparts p0) as (-> & ? & ? & ? & ?); [done..|].
    eexists. split; [done|]. right. split_and!; [done..|]. by left.
  - simpl. apply Split_inv in Hsplit as [Hz [[? _]|(t & -> & Ht)]]; [done|].
    apply Split_inv in Ht as [Hz1 [[_ ->]|(t' & _ & Ht')]];
      [|by apply Split_nonempty in Ht'].
    destruct (Split p0 SP) as [|h [|r [|??]]] eqn:Hsp; simpl;
      try (destruct e1; by rewrite invalid_reference_eq).
    intros [= <- <- <- <-].
    destruct (Hparts p0) as (-> & ? & ? & ? & ?); [done..|].
    eexists. split; [done|]. right. split_and!; [done..|]. right.
    split_and!.
    + apply Split_nonempty.
    + change " " with (String SP "") at 2. rewrite Join_Split.
      by rewrite !app_assoc.
    + pose proof (Split_pieces p1 SP) as Hsp1.
      pose proof (has_byte_Split NUL SP p1 Hz1) as Hsp2.
      rewrite Forall_forall in Hsp1, Hsp2. apply Forall_forall. auto.
Qed.

Lemma readRef_sound_witness :
  ∃ line,
    readPkt (mkEnv newResponseWriter (pktline (first_line branchFirst)) [])
    = Returns (line, true) (mkEnv newResponseWriter "" [])
    ∧ (line = "" ∧ hashA = "" ∧ "refs/heads/a" = ""
       ∧ ["symref=HEAD:refs/heads/main"; "capA"] = []
       ∨ has_byte SP hashA = false ∧ has_byte NUL hashA = false
         ∧ has_byte SP "refs/heads/a" = false
         ∧ has_byte NUL "refs/heads/a" = false
         ∧ (["symref=HEAD:refs/heads/main"; "capA"] = []
            ∧ line = hashA +:+ " " +:+ "refs/heads/a"
            ∨ ["symref=HEAD:refs/heads/main"; "capA"] ≠ []
              ∧ line = hashA +:+ " " +:+ "refs/heads/a" +:+ String NUL ""
                       +:+ Join ["symref=HEAD:refs/heads/main"; "capA"] " "
              ∧ Forall (λ o, has_byte SP o = false
                             ∧ has_byte NUL o = false)
                  ["symref=HEAD:refs/heads/main"; "capA"])).
Proof.
  apply (readRef_sound
    (mkEnv newResponseWriter (pktline (first_line branchFirst)) [])).
  vm_compute. reflexivity.
Defined.

(** X3. A record with a non-empty payload is accepted by [readRef] exactly
    when the payload has at most one NUL and exactly one space before it
    (before its end, when there is no NUL).  A rejected record is taken
    from the buffer all the same, and the handler answers 500 with the
    payload in the text. *)
Theorem readRef_accepts (rw : ResponseWriter) (line rest : string)
    (f : list string) :
  line ≠ "" → len line ≤ 65530 →
  let e := mkEnv rw (pktline line +:+ rest) f in
  if bool_decide ((count_byte NUL line ≤ 1)%nat
                  ∧ count_byte SP (before NUL line) = 1%nat)
  then ∃ hash ref options,
         readRef e = Returns (hash, ref, options, true) (mkEnv rw rest f)
  else readRef e
       = Returns ("", "", [], false)
           (mkEnv (rw_Write ("invalid reference: " +:+ line)
                     (rw_WriteHeader StatusInternalServerError rw)) rest f).
Proof.
  intros Hne Hlen e.
  pose proof (length_Split line NUL) as Hn.
  destruct (Split_head line NUL) as [tl Hhd]. rewrite Hhd in Hn.
  pose proof (length_Split (before NUL line) SP) as Hs.
  cbn [length] in Hn.
  assert (∀ A (k : string * bool → M A),
            bind readPkt k e = k (line, true) (mkEnv rw rest f)) as Hread.
  { intros A k. unfold bind, e. by rewrite readPkt_pktline. }
  destruct (decide ((count_byte NUL line ≤ 1)%nat
                    ∧ count_byte SP (before NUL line) = 1%nat)) as [Hok|Hok];
    [rewrite (bool_decide_eq_true_2 _ Hok)
    |rewrite (bool_decide_eq_false_2 _ Hok)].
  - destruct Hok as [Hz Hsp]. rewrite Hsp in Hs. eexists _, _, _.
    unfold readRef. rewrite Hread.
    rewrite (bool_decide_eq_false_2 (line = "")) by done.
    cbn [negb andb orb]. rewrite Hhd. cbn [lookup_total list_lookup_total].
    rewrite bool_decide_eq_false_2 by (cbn [length]; lia).
    rewrite bool_decide_eq_false_2 by lia. reflexivity.
  - unfold readRef. rewrite Hread.
    rewrite (bool_decide_eq_false_2 (line = "")) by done.
    cbn [negb andb orb]. rewrite Hhd. cbn [lookup_total list_lookup_total].
    destruct (decide (2 < length (before NUL line :: tl))%nat)
      as [Hlong|Hlong].
    { by rewrite (bool_decide_eq_true_2 _ Hlong). }
    rewrite (bool_decide_eq_false_2 _ Hlong).
    rewrite bool_decide_eq_true_2; [done|].
    cbn [length] in Hlong. intros Hparts. destruct Hok. split; lia.
Qed.

Lemma readRef_accepts_witness :
  readRef (mkEnv newResponseWriter (pktline "one two three" +:+ "0000") [])
  = Returns ("", "", [], false)
      (mkEnv (mkResponseWriter (Some 500) ∅
                "invalid reference: one two three") "0000" []).
Proof.
  apply (readRef_accepts newResponseWriter "one two three" "0000" []).
  - discriminate.
  - vm_compute. discriminate.
Defined.

(** ** Every outcome of the handler on an upstream answer with status 200 *)

Import Outcomes.

Lemma readPkt_panic (e e' : Env) (msg : string) :
  readPkt e = Panics msg e' → msg = slicePanic ∧ e' = e.
Proof.
  intros Hr.
  destruct (readPkt_cases e) as [[H _]|[[H _]|[(n & H & _)|(n & H & _)]]];
    rewrite H in Hr; by simplify_eq.
Qed.

Lemma readRef_outcome (e : Env) : read_outcome (w e) (readRef e).
Proof.
  pose proof (readRef_after e) as Ha.
  destruct (readPkt e) as [[line ok] e1|msg e1|] eqn:Hp; [| |done].
  - apply readPkt_progress in Hp as (Hw & _ & _).
    destruct Ha as [[-> (h & n & o & ->)]| ->]; [done|].
    destruct e1 as [rw1 d1 f1]. rewrite invalid_reference_eq.
    cbn [read_outcome w] in *. subst rw1. by exists line.
  - rewrite Ha. apply readPkt_panic in Hp as [-> ->]. done.
Qed.

Lemma skipEmpty_outcome (fuel : nat) (r : Ref) (e : Env)
    (rw : ResponseWriter) :
  (String.length (data e) + 1 < fuel)%nat →
  read_outcome rw (Returns r e) →
  read_outcome rw (skipEmpty fuel r e).
Proof.
  revert r e. induction fuel as [|fuel IH]; intros r e Hfuel Hr; [lia|].
  destruct r as [[[h first] o] ok]. cbn [skipEmpty].
  destruct (bool_decide (first = "") && ok) eqn:Hcond; [|done].
  apply andb_prop in Hcond as [_ ->]. cbn [read_outcome] in Hr.
  pose proof (readRef_outcome e) as Ho. rewrite Hr in Ho.
  unfold bind.
  destruct (readRef e) as [[[[h' first'] o'] ok'] e'|msg e'|] eqn:Hread;
    [|done..].
  destruct ok'.
  - apply IH; [|done]. apply readRef_progress in Hread. lia.
  - destruct fuel as [|fuel]; [lia|]. cbn [skipEmpty].
    by rewrite andb_false_r.
Qed.

Lemma readFirst_outcome (e : Env) : read_outcome (w e) (readFirst e).
Proof.
  unfold readFirst, bind, get_data.
  pose proof (readRef_outcome e) as Ho.
  pose proof (readRef_steady e) as Hs.
  destruct (readRef e) as [r e'|msg e'|]; [|done..].
  apply skipEmpty_outcome; [lia | done].
Qed.

(** The loop of main.go 400-410 keeps [order] and the keys of [others]
    the same names. *)
Lemma readOthers_outcome (fuel : nat) (others : gmap string string)
    (order : list string) (e : Env) :
  (String.length (data e) < fuel)%nat →
  (∀ n, n ∈ order ↔ is_Some (others !! n)) →
  match readOthers fuel others order e with
  | Returns (Some (others', order')) e' =>
      w e' = w e ∧ ∀ n, n ∈ order' ↔ is_Some (others' !! n)
  | Returns None e' => refusal (w e) (w e')
  | Panics msg e' => msg = slicePanic ∧ w e' = w e
  | OutOfFuel => False
  end.
Proof.
  revert others order e.
  induction fuel as [|fuel IH]; intros others order e Hfuel Hinv; [lia|].
  cbn [readOthers]. unfold bind.
  pose proof (readRef_outcome e) as Ho.
  destruct (readRef e) as [[[[h n] o] ok] e'|msg e'|] eqn:Hread; [|done..].
  destruct ok; cbn [negb read_outcome] in *; [|done].
  case_bool_decide; [done|].
  specialize (IH (<[n := h]> others) (order ++ [n]) e').
  rewrite Ho in IH. apply IH.
  - apply readRef_progress in Hread. lia.
  - intros k. rewrite elem_of_app, list_elem_of_singleton, Hinv.
    destruct (decide (n = k)) as [->|Hne].
    + rewrite lookup_insert_eq. split; [intros _; by eexists|].
      intros _. by right.
    + rewrite lookup_insert_ne by done.
      split; [intros [?|?]; [done | congruence] | by left].
Qed.

Lemma readAllOthers_outcome (e : Env) :
  match readAllOthers e with
  | Returns (Some (others, order)) e' =>
      w e' = w e ∧ ∀ n, n ∈ order ↔ is_Some (others !! n)
  | Returns None e' => refusal (w e) (w e')
  | Panics msg e' => msg = slicePanic ∧ w e' = w e
  | OutOfFuel => False
  end.
Proof.
  unfold readAllOthers, bind, get_data.
  apply readOthers_outcome; [lia|].
  intros n. rewrite lookup_empty. split; [by intros ?%elem_of_nil|].
  by intros [? ?].
Qed.

(** With a first reference other than HEAD the emission always panics at
    the target's name. *)
Lemma promote_branch_panics (first targetHash : string)
    (options : list string) (others : gmap string string)
    (order : list string) (d : string) (f : list string) :
  first ≠ "HEAD" → (∀ n, n ∈ order → is_Some (others !! n)) →
  let '(headHash, first', others', order') :=
    promote first targetHash others order in
  ∃ e, emitAdvertisement headHash first' options others' order'
         (mkEnv newResponseWriter d f)
       = Panics "invalid other reference: refs/heads/go" e
       ∧ status (w e) = Some 200.
Proof.
  intros Hfirst Hinv. unfold promote.
  rewrite bool_decide_eq_false_2 by done.
  assert (target ∈ sort_Strings (order ++ [target])) as Hin.
  { unfold sort_Strings. rewrite merge_sort_Permutation.
    apply elem_of_app. right. by left. }
  apply list_elem_of_split_l in Hin as (before & after & Hsplit & Hnot).
  rewrite Hsplit. eexists. split; [apply emitAdvertisement_missing | reflexivity].
  - intros k Hk.
    assert (k ≠ target) as Hne by (intros ->; done).
    rewrite lookup_delete_ne, lookup_insert_ne by done.
    apply Hinv.
    assert (k ∈ sort_Strings (order ++ [target])) as Hk'
      by (rewrite Hsplit; apply elem_of_app; by left).
    unfold sort_Strings in Hk'. rewrite merge_sort_Permutation in Hk'.
    apply elem_of_app in Hk' as [?|Hk']; [done|].
    by apply list_elem_of_singleton in Hk'.
  - apply lookup_delete_eq.
Qed.

(** X4. Whatever bytes the upstream sends with status 200, the handler ends
    in one of four ways.  It returns with status 500, no header set and
    one line of text as the whole body; or it returns with status 200, the
    two headers of an advertisement and a complete advertisement as the
    body: the service header, one empty record, a first reference named
    HEAD with a capability part, the other references with the target
    among them, and the flush record; or it panics in [readPkt] before
    anything was written; or it panics in the emission loop after status
    200 and a part of the body were written.  It never returns a partial
    body, and never an advertisement whose first reference is not HEAD. *)
Theorem infoRefs_outcomes (content : string) :
  match serve uploadPackRequest (Replies 200 content) with
  | Returns _ e =>
      (∃ detail,
         w e = mkResponseWriter (Some 500) ∅
                 ("invalid upstream header: " +:+ detail)
         ∨ w e = mkResponseWriter (Some 500) ∅
                   ("invalid reference: " +:+ detail)
         ∨ w e = mkResponseWriter (Some 500) ∅
                   "invalid target reference: refs/heads/go")
      ∨ (∃ a,
           w e = mkResponseWriter (Some 200) advertisementHeader (wire a)
           ∧ blanks a = 1%nat ∧ head_name a = "HEAD" ∧ is_Some (caps a)
           ∧ target ∈ (refs a).*2)
  | Panics msg e =>
      msg = "runtime error: slice bounds out of range"
      ∧ w e = newResponseWriter
      ∨ msg = "invalid other reference: refs/heads/go"
        ∧ status (w e) = Some 200
  | OutOfFuel => False
  end.
Proof.
  rewrite serve_200 by done.
  set (e0 := mkEnv newResponseWriter content [upstreamInfoRefs]).
  unfold rewriteRefs. unfold bind at 1.
  destruct (readPkt e0) as [[header ok] e1|msg e1|] eqn:Hp.
  2:{ apply readPkt_panic in Hp as [-> ->]. by left. }
  2:{ pose proof (readPkt_steady e0) as Hs. by rewrite Hp in Hs. }
  apply readPkt_progress in Hp as (Hw1 & _ & _). cbn [w e0] in Hw1.
  destruct (negb ok || bool_decide (header ≠ serviceLine)).
  { destruct e1 as [rw1 d1 f1]. cbn [w] in Hw1. subst rw1.
    left. exists header. by left. }
  unfold bind at 1. pose proof (readFirst_outcome e1) as Hf.
  rewrite Hw1 in Hf.
  destruct (readFirst e1) as [[[[headHash first] options] ok'] e2|msg e2|];
    [| |done].
  2:{ destruct Hf as [-> ->]. by left. }
  destruct ok'; cbn [negb read_outcome] in *.
  2:{ destruct Hf as [line Hf]. left. exists line. right; left.
      unfold ret. cbn [w]. by rewrite Hf. }
  unfold bind at 1. pose proof (readAllOthers_outcome e2) as Ho.
  rewrite Hf in Ho.
  destruct (readAllOthers e2) as [[[others order]|] e3|msg e3|]; [| | |done].
  3:{ destruct Ho as [-> ->]. by left. }
  2:{ destruct Ho as [line Ho]. left. exists line. right; left.
      unfold ret. cbn [w]. by rewrite Ho. }
  destruct Ho as [Hw3 Hinv]. destruct e3 as [rw3 d3 f3].
  cbn [w] in Hw3. subst rw3.
  destruct (others !! target) as [targetHash|] eqn:Htarget.
  2:{ left. exists "". by right; right. }
  destruct (decide (first = "HEAD")) as [->|Hfirst].
  - unfold promote. rewrite bool_decide_eq_true_2 by done.
    rewrite emitAdvertisement_present by (intros n; apply Hinv).
    right. eexists. split; [reflexivity|].
    cbn [blanks head_name caps refs]. split_and!; [done..|].
    rewrite entries_of_names. apply Hinv. by rewrite Htarget.
  - pose proof (promote_branch_panics first targetHash
      (rewriteOptions options) others order d3 f3 Hfirst
      (λ n, proj1 (Hinv n))) as Hpanic.
    destruct (promote _ _ _ _) as [[[hh fs] os] od].
    destruct Hpanic as (e & -> & Hst). by right.
Qed.

(** ** Rewriting what was rewritten *)

Lemma Split_Join (l : list string) (c : ascii) :
  l ≠ [] → Forall (λ x, has_byte c x = false) l →
  Split (Join l (String c "")) c = l.
Proof.
  intros Hne Hl. unfold Join.
  induction Hl as [|x l Hx Hl IH]; [done|].
  destruct l as [|y l]; [by apply Split_none|].
  change (String.concat (String c "") (x :: y :: l))
    with (x +:+ String c "" +:+ String.concat (String c "") (y :: l)).
  change (String c "" +:+ ?t) with (String c t).
  by rewrite Split_app, IH.
Qed.

Lemma rewritten_idemp (o : string) : rewritten (rewritten o) = rewritten o.
Proof.
  unfold rewritten. destruct (HasPrefix o "symref=") eqn:Ho; [done|].
  by rewrite Ho.
Qed.

Lemma rewritten_no_space (o : string) :
  has_byte SP o = false → has_byte SP (rewritten o) = false.
Proof. unfold rewritten. by destruct (HasPrefix o "symref="). Qed.

(** The options of the answer are rewritten to themselves. *)
Lemma options_rewrittenHEAD (a : Advert) :
  Join (rewriteOptions (options_of (rewrittenHEAD a))) " "
  = Join (rewriteOptions (options_of a)) " ".
Proof.
  unfold rewrittenHEAD, options_of at 1. cbn [caps].
  rewrite !rewriteOptions_fmap.
  destruct (options_of a) as [|o l] eqn:Ho; [done|].
  change " " with (String SP "").
  rewrite Split_Join.
  - rewrite <- list_fmap_compose. f_equal. apply list_fmap_ext.
    intros ???. apply rewritten_idemp.
  - done.
  - apply Forall_fmap. unfold options_of in Ho.
    destruct (caps a) as [c|]; [|done]. rewrite <- Ho.
    eapply Forall_impl; [apply Split_pieces|].
    intros x. apply rewritten_no_space.
Qed.

(** X5. The answer in the HEAD case is a fixed point of the handler: for a
    well-formed advertisement that starts with HEAD, lists the target and
    lists no name twice, and whose answer has a first line that fits a
    record, the handler given its own answer as the upstream's body
    answers the same bytes again. *)
Theorem infoRefs_HEAD_idempotent (a : Advert) :
  wf a = true → head_name a = "HEAD" → target ∈ (refs a).*2 →
  NoDup (refs a).*2 → fits (first_line (rewrittenHEAD a)) = true →
  serve uploadPackRequest (Replies 200 (wire (rewrittenHEAD a)))
  = Returns ()
      (mkEnv
         (mkResponseWriter (Some 200) advertisementHeader
            (wire (rewrittenHEAD a)))
         "" [upstreamInfoRefs]).
Proof.
  intros Hwf Hhead Htarget Hnd Hfits.
  assert (refs (rewrittenHEAD a) = refs a) as Hrefs
    by by apply entries_of_NoDup.
  rewrite serve_HEAD.
  - do 4 f_equal. unfold rewrittenHEAD at 1.
    rewrite options_rewrittenHEAD, Hrefs. done.
  - by apply wf_rewrittenHEAD.
  - done.
  - by rewrite Hrefs.
Qed.

Lemma infoRefs_HEAD_idempotent_witness :
  response
    (serve uploadPackRequest
       (Replies 200 (wire (rewrittenHEAD (headFirst 2)))))
  = Some (mkResponseWriter (Some 200) advertisementHeader
            (wire (rewrittenHEAD (headFirst 2)))).
Proof.
  rewrite (infoRefs_HEAD_idempotent (headFirst 2)).
  - reflexivity.
  - reflexivity.
  - reflexivity.
  - apply (bool_decide_unpack _). vm_compute. exact I.
  - apply (bool_decide_unpack _). vm_compute. exact I.
  - vm_compute. reflexivity.
Defined.

(** ** The first reference is a branch: always a panic *)

(** X6. Whenever a well-formed advertisement starts with a reference other
    than HEAD and lists the target, the handler panics, after it has
    answered status 200 with the two headers and has written the service
    header, the empty record, the target as first reference (at the hash
    listed for it, with the rewritten options) and the references whose
    names sort before the target's: the response is cut short before the
    target's own name is reached, the old first reference is never sent,
    and no flush record ends the body. *)
Theorem infoRefs_branch_first_cut_short (a : Advert) :
  wf a = true → head_name a ≠ "HEAD" → target ∈ (refs a).*2 →
  ∃ before after,
    sort_Strings ((refs a).*2 ++ [target]) = before ++ target :: after
    ∧ (target ∉ before)
    ∧ serve uploadPackRequest (Replies 200 (wire a))
      = Panics "invalid other reference: refs/heads/go"
          (mkEnv
             (mkResponseWriter (Some 200) advertisementHeader
                (pktline serviceLine +:+ "0000"
                 +:+ pktline (others_of (refs a) !!! target +:+ " "
                              +:+ target +:+ String NUL ""
                              +:+ Join (rewriteOptions (options_of a)) " ")
                 +:+ ref_lines (entries_of (others_of (refs a)) before)))
             "" [upstreamInfoRefs]).
Proof.
  intros Hwf Hhead Htarget.
  assert (target ∈ sort_Strings ((refs a).*2 ++ [target])) as Hin.
  { unfold sort_Strings. rewrite merge_sort_Permutation.
    apply elem_of_app. right. by left. }
  apply list_elem_of_split_l in Hin as (before & after & Hsplit & Hfirst).
  exists before, after. split_and!; [done..|].
  assert (∀ k, k ∈ before → k ≠ target ∧ k ∈ (refs a).*2) as Hbefore.
  { intros k Hk. assert (k ≠ target) as Hne by (intros ->; done).
    split; [done|].
    assert (k ∈ sort_Strings ((refs a).*2 ++ [target])) as Hk'
      by (rewrite Hsplit; apply elem_of_app; by left).
    unfold sort_Strings in Hk'. rewrite merge_sort_Permutation in Hk'.
    apply elem_of_app in Hk' as [?|Hk']; [done|].
    by apply list_elem_of_singleton in Hk'. }
  rewrite serve_200 by done. rewrite rewriteRefs_wire by done.
  rewrite (target_listed _ Htarget). unfold promote.
  rewrite bool_decide_eq_false_2 by done.
  rewrite Hsplit, emitAdvertisement_missing.
  - assert (∀ h,
      entries_of (delete target (<[target:=h]> (others_of (refs a)))) before
      = entries_of (others_of (refs a)) before) as ->; [|done].
    intros h. unfold entries_of. apply list_fmap_ext.
    intros i k Hk. apply list_elem_of_lookup_2, Hbefore in Hk as [Hne _].
    by rewrite lookup_total_delete_ne, lookup_total_insert_ne.
  - intros k [Hne Hk]%Hbefore.
    rewrite lookup_delete_ne, lookup_insert_ne by done.
    by apply others_of_present.
  - apply lookup_delete_eq.
Qed.

Lemma infoRefs_branch_first_cut_short_witness :
  ∃ before after,
    sort_Strings ((refs branchFirst).*2 ++ [target])
    = before ++ target :: after
    ∧ (target ∉ before)
    ∧ serve uploadPackRequest (Replies 200 (wire branchFirst))
      = Panics "invalid other reference: refs/heads/go"
          (mkEnv
             (mkResponseWriter (Some 200) advertisementHeader
                (pktline serviceLine +:+ "0000"
                 +:+ pktline (others_of (refs branchFirst) !!! target +:+ " "
                              +:+ target +:+ String NUL ""
                              +:+ Join (rewriteOptions
                                          (options_of branchFirst)) " ")
                 +:+ ref_lines
                       (entries_of (others_of (refs branchFirst)) before)))
             "" [upstreamInfoRefs]).
Proof.
  apply (infoRefs_branch_first_cut_short branchFirst).
  - reflexivity.
  - discriminate.
  - apply (bool_decide_unpack _). vm_compute. exact I.
Defined.

(** ** The redirect handlers *)

Import Redirects.

Lemma app_eq_cons (s1 s2 : string) (c : ascii) (s : string) :
  s1 +:+ s2 = String c s →
  s1 = "" ∧ s2 = String c s ∨ ∃ t, s1 = String c t ∧ s = t +:+ s2.
Proof.
  destruct s1 as [|x s1]; [by left|]. rewrite app_cons.
  intros [= -> <-]. right. by eexists.
Qed.

Lemma nullable_lang (r : Regexp) : nullable r = true ↔ lang r "".
Proof.
  induction r as [| | | |r1 IH1 r2 IH2|r1 IH1 r2 IH2|r IH|r IH];
    cbn [nullable lang].
  - done.
  - done.
  - done.
  - split; [done|]. by intros (c & _ & ?).
  - rewrite orb_true_iff, IH1, IH2. done.
  - rewrite andb_true_iff, IH1, IH2. split.
    + intros [H1 H2]. by exists "", "".
    + intros (s1 & s2 & Hs & H1 & H2).
      destruct s1; [|done]. destruct s2; [|done]. done.
  - split; [by left | done].
  - split; [|done]. intros _. by exists [].
Qed.

Lemma star_cons (r : Regexp) (c : ascii) (s : string) :
  lang (Star r) (String c s)
  ↔ ∃ s1 s2, s = s1 +:+ s2 ∧ lang r (String c s1) ∧ lang (Star r) s2.
Proof.
  cbn [lang]. split.
  - intros (l & Hs & Hl). revert Hs.
    induction Hl as [|x l Hx Hl IH]; [done|]. cbn [flatten foldr].
    intros Hs. symmetry in Hs.
    apply app_eq_cons in Hs as [[-> Hs]|(t & -> & ->)].
    + apply IH. symmetry. exact Hs.
    + exists t, (flatten l). split_and!; [done..|]. by exists l.
  - intros (s1 & s2 & -> & H1 & l & -> & Hl).
    exists (String c s1 :: l). split; [done|]. by constructor.
Qed.

Lemma deriv_lang (r : Regexp) (c : ascii) (s : string) :
  lang (deriv c r) s ↔ lang r (String c s).
Proof.
  revert s.
  induction r as [| | | |r1 IH1 r2 IH2|r1 IH1 r2 IH2|r IH|r IH]; intros s.
  - done.
  - done.
  - cbn [deriv lang]. destruct (decide (c0 = c)) as [->|Hc]; cbn [lang].
    + split; [by intros -> | by intros [= ->]].
    + split; [done | by intros [= -> _]].
  - cbn [deriv lang]. destruct (p c) eqn:Hp; cbn [lang].
    + split; [intros ->; by exists c|]. by intros (c' & _ & [= <- <-]).
    + split; [done|]. intros (c' & Hp' & [= <- _]). congruence.
  - cbn [deriv lang]. by rewrite IH1, IH2.
  - assert (lang (Concat (deriv c r1) r2) s
            ↔ ∃ t s2, s = t +:+ s2 ∧ lang r1 (String c t) ∧ lang r2 s2)
      as Hcat.
    { cbn [lang]. split; intros (t & s2 & -> & H1 & H2);
        exists t, s2; (split_and!; [done| |done]); by apply IH1. }
    cbn [deriv]. destruct (nullable r1) eqn:Hn.
    + change (lang (Alt ?a ?b) s) with (lang a s ∨ lang b s).
      rewrite Hcat, IH2. cbn [lang]. split.
      * intros [(t & s2 & -> & H1 & H2)|H2].
        -- exists (String c t), s2. by rewrite app_cons.
        -- apply nullable_lang in Hn. by exists "", (String c s).
      * intros (s1 & s2 & Hs & H1 & H2). symmetry in Hs.
        apply app_eq_cons in Hs as [[-> ->]|(t & -> & ->)];
          [by right|]. left. by exists t, s2.
    + rewrite Hcat. cbn [lang]. split.
      * intros (t & s2 & -> & H1 & H2).
        exists (String c t), s2. by rewrite app_cons.
      * intros (s1 & s2 & Hs & H1 & H2). symmetry in Hs.
        apply app_eq_cons in Hs as [[-> ->]|(t & -> & ->)];
          [|by exists t, s2].
        apply nullable_lang in H1. congruence.
  - cbn [deriv lang]. rewrite IH. split; [by right|]. by intros [?|?].
  - rewrite star_cons. cbn [deriv].
    change (lang (Concat ?a ?b) s)
      with (∃ s1 s2, s = s1 +:+ s2 ∧ lang a s1 ∧ lang b s2).
    split; intros (s1 & s2 & -> & H1 & H2); exists s1, s2;
      (split_and!; [done| |done]); by apply IH.
Qed.

(** Matching by derivatives decides membership. *)
Lemma MatchString_lang (r : Regexp) (s : string) :
  MatchString r s = true ↔ lang r s.
Proof.
  revert r. induction s as [|c s IH]; intros r; cbn [MatchString].
  - apply nullable_lang.
  - by rewrite IH, deriv_lang.
Qed.

Lemma idShape_spec (s : string) :
  idShape s = true
  ↔ ∃ t, all_bytes idByte t = true ∧ (s = t ∨ s = t +:+ "/").
Proof.
  induction s as [|c s IH]; cbn [idShape].
  - split; [|done]. intros _. exists "". split; [done | by left].
  - destruct (idByte c) eqn:Hc.
    + rewrite IH. split.
      * intros (t & Ht & Hs). exists (String c t).
        split; [simpl; by rewrite Hc|].
        destruct Hs as [->| ->]; [by left | right; by rewrite app_cons].
      * intros (t & Ht & Hs). destruct t as [|x t].
        -- destruct Hs as [?|Hs]; [done|].
           rewrite app_nil_l in Hs. injection Hs as -> ->. done.
        -- simpl in Ht. apply andb_prop in Ht as [_ Ht].
           exists t. split; [done|].
           destruct Hs as [Hs|Hs]; [left | right; rewrite app_cons in Hs];
             by injection Hs.
    + rewrite andb_true_iff, !bool_decide_eq_true. split.
      * intros [-> ->]. exists "". split; [done | by right].
      * intros (t & Ht & Hs). destruct t as [|x t].
        -- destruct Hs as [?|Hs]; [done|].
           rewrite app_nil_l in Hs. by injection Hs.
        -- simpl in Ht. apply andb_prop in Ht as [Hx _].
           destruct Hs as [Hs|Hs]; [|rewrite app_cons in Hs];
             injection Hs as -> _; congruence.
Qed.

Lemma lang_validId (s : string) : lang validId s ↔ idShape s = true.
Proof.
  unfold validId. cbn [lang]. split.
  - intros (s1 & s2 & -> & (l & -> & Hl) & Hs2).
    induction Hl as [|x l Hx Hl IH].
    + rewrite app_nil_l. by destruct Hs2 as [->| ->].
    + destruct Hx as (c & Hc & ->).
      cbn [flatten foldr]. rewrite !app_cons, app_nil_l.
      cbn [idShape]. by rewrite Hc.
  - induction s as [|c s IH]; cbn [idShape].
    + intros _. exists "", "". split_and!; [done| |by left]. by exists [].
    + destruct (idByte c) eqn:Hc.
      * intros (s1 & s2 & -> & (l & -> & Hl) & Hs2)%IH.
        exists (String c (flatten l)), s2. split_and!; [done| |done].
        exists (String c "" :: l). split; [done|].
        constructor; [by exists c | done].
      * intros [H1 H2]%andb_prop.
        apply bool_decide_eq_true in H1, H2. subst.
        exists "", "/". split_and!; [done| |by right]. by exists [].
Qed.

Lemma MatchString_validId (id : string) :
  MatchString validId id = idShape id.
Proof.
  assert (MatchString validId id = true ↔ idShape id = true) as H
    by by rewrite MatchString_lang, lang_validId.
  destruct (MatchString validId id), (idShape id); try done.
  - symmetry. by apply H.
  - by apply H.
Qed.

(** X7. [validId] matches an id exactly when the id is made of ASCII
    letters, digits and dashes, followed by at most one slash: no dot, no
    second slash, no [?], [#] or [%], and no byte above 127. *)
Theorem validId_shape (id : string) :
  MatchString validId id = idShape id
  ∧ (MatchString validId id = true
     ↔ ∃ t, all_bytes idByte t = true ∧ (id = t ∨ id = t +:+ "/")).
Proof.
  split; [apply MatchString_validId|].
  by rewrite MatchString_validId, idShape_spec.
Qed.

(** ** The routes of [prefixHelpers] *)

Lemma Sprintf_stem (stem arg : string) :
  has_byte "%" stem = false →
  Sprintf (stem +:+ "%s") arg = Some (stem +:+ arg).
Proof.
  unfold Sprintf. induction stem as [|c stem IH]; intros Hs.
  - rewrite !app_nil_l. cbn. by rewrite app_nil_r.
  - cbn [has_byte] in Hs. apply orb_false_elim in Hs as [Hc Hs].
    apply bool_decide_eq_false in Hc.
    rewrite !app_cons. cbn [Sprintf_go].
    destruct (decide (c = "%"%char)) as [?|_]; [done|].
    by rewrite IH.
Qed.

Lemma wrappedHandler_go_get (h : HttpRequest → Served) (r : HttpRequest) :
  wrappedHandler h r
  = if bool_decide (Query r !! "go-get" = Some ["1"]) then Written goGetHTML5
    else h r.
Proof.
  unfold wrappedHandler. destruct (Query r !! "go-get") as [gg|]; [|done].
  destruct (decide (gg = ["1"])) as [->|Hgg].
  - by rewrite (bool_decide_eq_true_2 (Some _ = Some _)).
  - rewrite (bool_decide_eq_false_2 (Some _ = Some _)) by congruence.
    destruct gg as [|g [|g' gg]]; [done| |done].
    destruct (decide (g = "1")) as [->|Hg]; [done|].
    rewrite (bool_decide_eq_false_2 (_ = "1")) by done.
    by rewrite andb_false_r.
Qed.

Lemma prefixRedirectHandler_stem (prefix stem id : string)
    (r : HttpRequest) :
  has_byte "%" stem = false →
  prefix ≠ "" →
  URL_Path r = prefix +:+ id →
  prefixRedirectHandler prefix (stem +:+ "%s") r
  = if bool_decide (id = "") then
      Redirect (bytes_to (Nat.pred (String.length prefix)) prefix) StatusFound
    else if idShape id then
      Redirect
        (stem +:+ id +:+
         (if bool_decide (URL_RawQuery r ≠ "") then "?" +:+ URL_RawQuery r
          else ""))
        StatusFound
    else Error "Not found" StatusNotFound.
Proof.
  intros Hstem Hprefix Hpath. unfold prefixRedirectHandler. rewrite Hpath.
  assert (0 < len prefix) as Hlen.
  { pose proof (len_nonneg prefix).
    assert (len prefix ≠ 0) by by rewrite len_zero. lia. }
  destruct (decide (id = "")) as [->|Hid].
  - rewrite app_nil_r, !bool_decide_eq_true_2 by done.
    rewrite bool_decide_eq_false_2 by lia.
    do 2 f_equal. unfold len. lia.
  - assert (0 < len id) as Hlid.
    { pose proof (len_nonneg id).
      assert (len id ≠ 0) by by rewrite len_zero. lia. }
    rewrite (bool_decide_eq_false_2 (_ = prefix)).
    2:{ intros H. apply (f_equal len) in H. rewrite len_app in H. lia. }
    rewrite (bool_decide_eq_false_2 (id = "")) by done.
    rewrite bool_decide_eq_false_2 by (rewrite len_app; lia).
    replace (Z.to_nat (len prefix)) with (String.length prefix)
      by (unfold len; lia).
    rewrite bytes_from_app, MatchString_validId.
    destruct (idShape id); [|done]. cbn [negb].
    rewrite Sprintf_stem by done. unfold redirectWithQuery.
    destruct (bool_decide (URL_RawQuery r ≠ "")).
    + by rewrite app_assoc.
    + by rewrite app_nil_r.
Qed.

(** X8. The routes registered for [prefixHelpers].  For every entry
    [(name, base)] of the table and every request whose path is
    [/name/] followed by [id], the handler registered under [/name/]
    answers, in this order of precedence: a host starting with [www.] is
    redirected (301) to the same URL on the bare host; a query holding
    exactly [go-get=1] gets the go-import page; the bare [/name/] is
    redirected (302) to [/name], without the query; an [id] of letters,
    digits and dashes with at most one closing slash is redirected (302) to
    [base] with [id] in the place of its [%s], followed by [?] and the raw
    query when there is one; any other [id] gets 404 [Not found].  The
    handler never panics on such a path and never leaves the bases of the
    table. *)
Theorem prefixRoute_serves
    (URL_String : string → string → HttpRequest → string)
    (name base id : string) (r : HttpRequest) :
  (name, base) ∈ prefixHelpers →
  URL_Path r = "/" +:+ name +:+ "/" +:+ id →
  base = TrimSuffix base "%s" +:+ "%s"
  ∧ (prefixRoute URL_String name base).1 = "/" +:+ name +:+ "/"
  ∧ (prefixRoute URL_String name base).2 r
    = if HasPrefix (Host r) "www." then
        Redirect (URL_String "https" (bytes_from 4 (Host r)) r)
          StatusMovedPermanently
      else if bool_decide (Query r !! "go-get" = Some ["1"]) then
        Written goGetHTML5
      else if bool_decide (id = "") then
        Redirect ("/" +:+ name) StatusFound
      else if idShape id then
        Redirect
          (TrimSuffix base "%s" +:+ id +:+
           (if bool_decide (URL_RawQuery r ≠ "") then
              "?" +:+ URL_RawQuery r
            else ""))
          StatusFound
      else Error "Not found" StatusNotFound.
Proof.
  intros Hin Hpath.
  assert (base = TrimSuffix base "%s" +:+ "%s"
          ∧ has_byte "%" (TrimSuffix base "%s") = false
          ∧ bytes_to (Nat.pred (String.length ("/" +:+ name +:+ "/")))
              ("/" +:+ name +:+ "/") = "/" +:+ name) as (Hbase & Hstem & Hbare).
  { unfold prefixHelpers in Hin.
    repeat (apply elem_of_cons in Hin as [[= -> ->]|Hin];
            [by vm_compute|]).
    by apply elem_of_nil in Hin. }
  split_and!; [done..|].
  unfold prefixRoute. cbn [snd]. unfold hostRedirectHandler.
  destruct (HasPrefix (Host r) "www."); [done|].
  rewrite wrappedHandler_go_get.
  destruct (bool_decide (Query r !! "go-get" = Some ["1"])); [done|].
  rewrite Hbase at 1.
  rewrite (prefixRedirectHandler_stem _ _ id); [by rewrite Hbare|done| |].
  - by destruct name.
  - by rewrite Hpath, !app_assoc.
Qed.

Lemma prefixRoute_serves_witness :
  (prefixRoute (λ scheme host r, scheme +:+ "://" +:+ host +:+ URL_Path r)
     "issue" "https://github.com/google/gvisor/issues/%s").2
    (mkHttpRequest "gvisor.dev" "/issue/123" "a=b" ∅)
  = Redirect "https://github.com/google/gvisor/issues/123?a=b" 302.
Proof.
  refine (proj2 (proj2 (prefixRoute_serves _ "issue" _ "123"
            (mkHttpRequest "gvisor.dev" "/issue/123" "a=b" ∅) _ _))).
  - apply (bool_decide_unpack _). vm_compute. exact I.
  - reflexivity.
Defined.
